(** * axios-node-streams: the JSON-to-CSV transform of [src/index.mjs]

    A shallow embedding of [flattenObject] and of the [json2csv] Transform
    stage ([transform], [flush]) together with the few ECMAScript operations
    they rest on: property assignment and lookup on ordinary objects,
    [ToBoolean], [ToString] and [Array.prototype.join].

    Conventions.
    - A JavaScript string is a [string]; one character stands for one code
      unit, so the texts of the model are those of code units below 256.
    - A chunk reaching the stage is a [Buffer], a list of bytes, as the
      response body piped in at line 89 delivers them; [chunk.toString()]
      decodes each chunk on its own.
    - A number is the integer it denotes ([Z]): the documents considered
      carry integer literals only, of a magnitude a double holds exactly and
      prints in plain digits (below [10^21]).
    - An object is the list of its own enumerable properties in enumeration
      order (array indices first, ascending, then the other keys in creation
      order); its keys are pairwise distinct.
    - What the platform computes and the repository does not define
      ([JSON.parse], the decoding of a [Buffer], the string-to-number
      conversion behind [>], the member names of [Array.prototype]) is a
      parameter of the development, the class [Platform]. *)

From Stdlib Require Import List String Ascii ZArith NArith Bool Lia.
From Stdlib Require Import DecimalString.
From Stdlib.Strings Require Import Byte.
Import ListNotations.

#[local] Set Warnings "-register-all,-notation-for-abbreviation".

Open Scope string_scope.
Open Scope list_scope.

Infix "+++" := String.append (at level 60, right associativity).

(** ** Values *)

(** What [JSON.parse] can return. *)
Inductive json : Type :=
| JNull
| JBool (b : bool)
| JNum (n : Z)
| JStr (s : string)
| JArr (elems : list json)
| JObj (props : list (string * json)).

(** What a property read can return besides a document value: [undefined],
    or a built-in object reached through the prototype chain.  A built-in is
    truthy; [shown] is the text [ToString] gives for it. *)
Inductive value : Type :=
| VUndefined
| VJson (j : json)
| VBuiltin (shown : string).

Inductive js_error : Type := SyntaxError | TypeError.

(** A [Buffer]: the bytes of one chunk of the response body. *)
Definition Buffer : Type := list Byte.byte.

(** A completion: a normal result or a thrown error. *)
Inductive completion (A : Type) : Type :=
| Normal (a : A)
| Throw (e : js_error).
Arguments Normal {A} a.
Arguments Throw {A} e.

Definition bind {A B : Type} (c : completion A) (k : A -> completion B) : completion B :=
  match c with
  | Normal a => k a
  | Throw e => Throw e
  end.

Notation "x <- c ;; k" := (bind c (fun x => k))
  (at level 61, c at next level, right associativity).

(** ** Association lists *)

Fixpoint assoc {A : Type} (k : string) (ps : list (string * A)) : option A :=
  match ps with
  | [] => None
  | (k', v) :: tl => if String.eqb k k' then Some v else assoc k tl
  end.

Definition has_key {A : Type} (k : string) (ps : list (string * A)) : bool :=
  match assoc k ps with Some _ => true | None => false end.

(** Overwrite the value of an existing key, keeping its position. *)
Fixpoint update {A : Type} (k : string) (v : A) (ps : list (string * A)) : list (string * A) :=
  match ps with
  | [] => []
  | (k', v') :: tl =>
      if String.eqb k k' then (k', v) :: tl else (k', v') :: update k v tl
  end.

(** ** Property keys and their order *)

Definition digit_of (c : ascii) : option N :=
  let n := N_of_ascii c in
  if ((48 <=? n) && (n <=? 57))%N then Some (n - 48)%N else None.

Fixpoint digits_value (s : string) (acc : N) : option N :=
  match s with
  | EmptyString => Some acc
  | String c tl =>
      match digit_of c with
      | Some d => digits_value tl (10 * acc + d)%N
      | None => None
      end
  end.

(** An array index is the canonical decimal text of an integer below
    [2^32 - 1]: no sign, no leading zero. *)
Definition array_index (k : string) : option N :=
  match k with
  | EmptyString => None
  | String c tl =>
      if (Ascii.eqb c "0" && negb (String.eqb tl EmptyString))%bool then None
      else match digits_value k 0 with
           | Some n => if (n <? 4294967295)%N then Some n else None
           | None => None
           end
  end.

(** A fresh index key goes before the first own key that is not an index or
    is a larger index. *)
Fixpoint insert_index {A : Type} (i : N) (k : string) (v : A)
    (ps : list (string * A)) : list (string * A) :=
  match ps with
  | [] => [(k, v)]
  | (k', v') :: tl =>
      match array_index k' with
      | Some j => if (j <? i)%N then (k', v') :: insert_index i k v tl
                  else (k, v) :: ps
      | None => (k, v) :: ps
      end
  end.

(** Creating an own property that does not exist yet. *)
Definition define_new {A : Type} (k : string) (v : A) (ps : list (string * A)) : list (string * A) :=
  match array_index k with
  | Some i => insert_index i k v ps
  | None => ps ++ [(k, v)]
  end.

(** ** Ordinary objects *)

(** The prototype of an object built by the program: [Object.prototype] as
    for every [{}], or what an assignment to [__proto__] has put there. *)
Inductive proto : Type :=
| ProtoObject
| ProtoNull
| ProtoArray (elems : list json)
| ProtoPlain (props : list (string * json)).

Record object : Type := mkObject {
  own : list (string * json);
  prototype : proto
}.

(** The literal [{}]. *)
Definition empty_object : object := mkObject [] ProtoObject.

Definition Object_keys (o : object) : list string := map fst (own o).

Definition proto_key : string := "__proto__".

(** The setter of [Object.prototype.__proto__]: an object or [null] becomes
    the prototype, any other value is ignored. *)
Definition set_prototype (o : object) (v : json) : object :=
  match v with
  | JNull => mkObject (own o) ProtoNull
  | JArr l => mkObject (own o) (ProtoArray l)
  | JObj ps => mkObject (own o) (ProtoPlain ps)
  | _ => o
  end.

(** [res[k] = v] on an ordinary object.  An own property is overwritten where
    it stands.  Otherwise the prototype chain decides: every member it can
    hold is a writable data property, for which a fresh own property is
    created, except the accessor [__proto__] of [Object.prototype], whose
    setter runs instead.  That accessor is out of reach when the chain is cut
    by [null], or when a plain object on the chain has a data property of
    that name. *)
Definition obj_assign (o : object) (k : string) (v : json) : object :=
  if has_key k (own o) then mkObject (update k v (own o)) (prototype o)
  else if String.eqb k proto_key then
    match prototype o with
    | ProtoNull => mkObject (define_new k v (own o)) (prototype o)
    | ProtoPlain props =>
        if has_key proto_key props then mkObject (define_new k v (own o)) (prototype o)
        else set_prototype o v
    | _ => set_prototype o v
    end
  else mkObject (define_new k v (own o)) (prototype o).

(** ** The Flattener: [flattenObject], lines 16-30 *)

(** [parent ? parent + "." + key : key]: the empty string is falsy. *)
Definition propName (parent key : string) : string :=
  if String.eqb parent EmptyString then key else parent +++ "." +++ key.

(** Decimal text of a natural number, the key of an array element. *)
Definition index_key (i : nat) : string := NilZero.string_of_uint (Nat.to_uint i).

(** [for (let key in obj)] visits the own enumerable keys of [obj]: the
    properties of an object, the indices of an array or of a string; a
    number, a boolean and [null] have none.  At each key the value is either
    a plain object ([typeof] is ["object"], not [null], not an array), and the
    function calls itself on it with the same [res], or anything else, and it
    is assigned to [res[propName]]. *)
Fixpoint flattenObject (obj : json) (parent : string) (res : object) : object :=
  match obj with
  | JObj props =>
      (fix for_in (ps : list (string * json)) (res : object) : object :=
         match ps with
         | [] => res
         | (key, v) :: tl =>
             let name := propName parent key in
             for_in tl match v with
                       | JObj _ => flattenObject v name res
                       | _ => obj_assign res name v
                       end
         end) props res
  | JArr elems =>
      (fix for_in (i : nat) (l : list json) (res : object) : object :=
         match l with
         | [] => res
         | v :: tl =>
             let name := propName parent (index_key i) in
             for_in (S i) tl match v with
                             | JObj _ => flattenObject v name res
                             | _ => obj_assign res name v
                             end
         end) 0 elems res
  | JStr s =>
      (fix for_in (i : nat) (s : string) (res : object) : object :=
         match s with
         | EmptyString => res
         | String c tl =>
             for_in (S i) tl
               (obj_assign res (propName parent (index_key i)) (JStr (String c EmptyString)))
         end) 0 s res
  | _ => res
  end.

(** The body of the loop at one key. *)
Definition visit (v : json) (name : string) (res : object) : object :=
  match v with
  | JObj _ => flattenObject v name res
  | _ => obj_assign res name v
  end.

(** The [for..in] loop of [flattenObject] over an array, from index [i] on. *)
Fixpoint array_loop (parent : string) (i : nat) (l : list json) (res : object) : object :=
  match l with
  | [] => res
  | v :: tl => array_loop parent (S i) tl (visit v (propName parent (index_key i)) res)
  end.

(** [flattenObject(result)]: [parent] defaults to the empty string and
    [res] to [{}]. *)
Definition flatten (result : json) : object :=
  flattenObject result EmptyString empty_object.

(** The test of line 19-23. *)
Definition is_plain_object (v : json) : bool :=
  match v with JObj _ => true | _ => false end.

(** The flat record as the specification words it: the leaves of a record
    with their dotted paths, in document order, a nested object being
    replaced by its own leaves under the extended path; [assign_all] stores
    them one after the other. *)
Fixpoint leaves (v : json) (parent : string) : list (string * json) :=
  match v with
  | JObj props =>
      (fix each (ps : list (string * json)) : list (string * json) :=
         match ps with
         | [] => []
         | (key, v') :: tl =>
             match v' with
             | JObj _ => leaves v' (propName parent key)
             | _ => [(propName parent key, v')]
             end ++ each tl
         end) props
  | _ => []
  end.

Definition assign_all (res : object) (l : list (string * json)) : object :=
  fold_left (fun r pv => obj_assign r (fst pv) (snd pv)) l res.

(** ** The header set, as the specification words it *)

(** The distinct elements of a list in the order of their first occurrence. *)
Fixpoint first_seen (l : list string) : list string :=
  match l with
  | [] => []
  | k :: tl => k :: filter (fun k' => negb (String.eqb k' k)) (first_seen tl)
  end.

(** Every key of every flat record, record after record. *)
Definition all_keys (elems : list json) : list string :=
  List.concat (map (fun result => Object_keys (flatten result)) elems).

(** ** Conversions: [ToBoolean], [ToString], [Array.prototype.join] *)

Definition newline : string := String "010" EmptyString.

(** [Number::toString] on an integer of magnitude below [10^21]: its decimal
    digits, with a minus sign when negative. *)
Definition number_text (n : Z) : string := NilZero.string_of_int (Z.to_int n).

(** [l.join(sep)] on texts. *)
Fixpoint join (sep : string) (l : list string) : string :=
  match l with
  | [] => EmptyString
  | s :: tl =>
      match tl with
      | [] => s
      | _ => s +++ sep +++ join sep tl
      end
  end.

(** Left-to-right evaluation that stops at the first throw. *)
Definition map_completion {A B : Type} (f : A -> completion B) : list A -> completion (list B) :=
  fix go (l : list A) : completion (list B) :=
    match l with
    | [] => Normal []
    | a :: tl => b <- f a ;; bs <- go tl ;; Normal (b :: bs)
    end.

(** [ToString] of a document value.  An array goes through
    [Array.prototype.toString], that is [join(",")], where [null] elements
    count as empty.  A plain object goes through [OrdinaryToPrimitive]:
    [Object.prototype.toString] answers ["[object Object]"] unless an own
    (hence non-callable) [toString] property hides it, in which case
    [valueOf] cannot produce a primitive either and a [TypeError] is thrown. *)
Fixpoint ToString (v : json) : completion string :=
  match v with
  | JNull => Normal "null"
  | JBool true => Normal "true"
  | JBool false => Normal "false"
  | JNum n => Normal (number_text n)
  | JStr s => Normal s
  | JArr elems =>
      texts <- map_completion
                 (fun e => match e with JNull => Normal EmptyString | _ => ToString e end)
                 elems ;;
      Normal (join "," texts)
  | JObj props =>
      if has_key "toString" props then Throw TypeError else Normal "[object Object]"
  end.

(** A document value in which no object, at any depth, has a key named
    [toString]. *)
Fixpoint printable (v : json) : bool :=
  match v with
  | JArr elems => forallb printable elems
  | JObj props =>
      negb (has_key "toString" props)
      && (fix each (ps : list (string * json)) : bool :=
            match ps with
            | [] => true
            | (_, v') :: tl => printable v' && each tl
            end) props
  | _ => true
  end.

Definition ToBoolean (v : value) : bool :=
  match v with
  | VUndefined => false
  | VJson JNull => false
  | VJson (JBool b) => b
  | VJson (JNum n) => negb (n =? 0)%Z
  | VJson (JStr s) => negb (String.eqb s EmptyString)
  | VJson (JArr _) => true
  | VJson (JObj _) => true
  | VBuiltin _ => true
  end.

(** The text [join] gives one element: empty for [undefined] and [null]. *)
Definition element_text (v : value) : completion string :=
  match v with
  | VUndefined => Normal EmptyString
  | VJson JNull => Normal EmptyString
  | VJson j => ToString j
  | VBuiltin shown => Normal shown
  end.

(** [values.join(",")] on a list of values. *)
Definition join_values (values : list value) : completion string :=
  texts <- map_completion element_text values ;;
  Normal (join "," texts).

(** ** Property reads through the prototype chain *)

Definition native_function (name : string) : value :=
  VBuiltin ("function " +++ name +++ "() { [native code] }").

Definition Object_prototype_functions : list string :=
  [ "__defineGetter__"; "__defineSetter__"; "hasOwnProperty"; "__lookupGetter__";
    "__lookupSetter__"; "isPrototypeOf"; "propertyIsEnumerable"; "toString";
    "valueOf"; "toLocaleString" ].

Definition includes (l : list string) (k : string) : bool :=
  existsb (String.eqb k) l.

(** A read that reaches [Object.prototype]; [receiver_proto] is what the
    getter of [__proto__] answers: the prototype of the object read from. *)
Definition Object_prototype_get (receiver_proto : value) (k : string) : value :=
  if String.eqb k "constructor" then native_function "Object"
  else if String.eqb k proto_key then receiver_proto
  else if includes Object_prototype_functions k then native_function k
  else VUndefined.

(** The names [Object.prototype] answers to. *)
Definition is_Object_prototype_member (k : string) : bool :=
  String.eqb k "constructor" || String.eqb k proto_key
  || includes Object_prototype_functions k.

(** Line 65 on a value the row owns. *)
Definition blank_falsy (v : json) : value :=
  if ToBoolean (VJson v) then VJson v else VJson (JStr EmptyString).

(** An object built by [flattenObject] all of whose values, own or reachable
    through a prototype taken from the document, are [printable]. *)
Definition printable_object (o : object) : Prop :=
  Forall (fun kv => printable (snd kv) = true) (own o)
  /\ match prototype o with
     | ProtoArray elems => forallb printable elems = true
     | ProtoPlain props => printable (JObj props) = true
     | _ => True
     end.

(** The values of [results] that are no array although their [length] is a
    positive number: a non-empty string, an object whose own [length] is a
    positive number or [true]. *)
Definition array_like (results : json) : bool :=
  match results with
  | JStr s => negb (String.eqb s EmptyString)
  | JObj props =>
      match assoc "length" props with
      | Some (JNum n) => (0 <? n)%Z
      | Some (JBool b) => b
      | _ => false
      end
  | _ => false
  end.

(** What the platform provides and the repository takes as given. *)
Class Platform : Type := {
  (** [JSON.parse]: the parsed document, or [None] where it throws its
      [SyntaxError]. *)
  JSON_parse : string -> option json;
  (** [Buffer.prototype.toString()]: the text the bytes of one chunk encode
      in UTF-8, a malformed or cut sequence giving replacement characters. *)
  Buffer_toString : Buffer -> string;
  (** Whether [ToNumber] of a text is greater than zero. *)
  StringToNumber_positive : string -> bool;
  (** The names of the function-valued members of [Array.prototype] other
      than [constructor]. *)
  Array_prototype_functions : list string
}.

Section Stage.

Context {platform : Platform}.

(** A read that reaches an array: its elements and [length], then
    [Array.prototype], then [Object.prototype]. *)
Definition Array_get (elems : list json) (k : string) : value :=
  if String.eqb k "length" then VJson (JNum (Z.of_nat (List.length elems)))
  else match match array_index k with
             | Some i => nth_error elems (N.to_nat i)
             | None => None
             end with
       | Some e => VJson e
       | None =>
           if String.eqb k "constructor" then native_function "Array"
           else if includes Array_prototype_functions k then native_function k
           else Object_prototype_get (VJson (JArr elems)) k
       end.

(** [row[header]] on an object built by [flattenObject]. *)
Definition obj_get (o : object) (k : string) : value :=
  match assoc k (own o) with
  | Some v => VJson v
  | None =>
      match prototype o with
      | ProtoNull => VUndefined
      | ProtoObject => Object_prototype_get (VBuiltin "[object Object]") k
      | ProtoArray elems => Array_get elems k
      | ProtoPlain props =>
          match assoc k props with
          | Some v => VJson v
          | None => Object_prototype_get (VJson (JObj props)) k
          end
      end
  end.

(** ** The Transform stage: [json2csv], lines 32-76 *)

(** [json.results] on the parsed document.  Reading a property of [null]
    throws; no prototype has a member of that name, so anything but an own
    property gives [undefined] ([None]). *)
Definition get_results (parsed : json) : completion (option json) :=
  match parsed with
  | JNull => Throw TypeError
  | JObj props => Normal (assoc "results" props)
  | _ => Normal None
  end.

(** [results.length]. *)
Definition get_length (results : option json) : completion (option json) :=
  match results with
  | None => Throw TypeError
  | Some JNull => Throw TypeError
  | Some (JArr elems) => Normal (Some (JNum (Z.of_nat (List.length elems))))
  | Some (JStr s) => Normal (Some (JNum (Z.of_nat (String.length s))))
  | Some (JObj props) => Normal (assoc "length" props)
  | Some (JNum _) => Normal None
  | Some (JBool _) => Normal None
  end.

(** [x > 0]: [x] is converted to a number; [undefined] gives [NaN], [null]
    gives zero, an array or an object goes through its text. *)
Definition greater_than_zero (x : option json) : completion bool :=
  match x with
  | None => Normal false
  | Some JNull => Normal false
  | Some (JBool b) => Normal b
  | Some (JNum n) => Normal (0 <? n)%Z
  | Some (JStr s) => Normal (StringToNumber_positive s)
  | Some v => s <- ToString v ;; Normal (StringToNumber_positive s)
  end.

(** Lines 55-59: a key not yet among the headers is pushed at the end. *)
Definition add_header (headers : list string) (key : string) : list string :=
  if includes headers key then headers else headers ++ [key].

(** Lines 51-60, one turn of [results.forEach]. *)
Definition scan_result (acc : list string * list object) (result : json)
    : list string * list object :=
  let flatResult := flatten result in
  (fold_left add_header (Object_keys flatResult) (fst acc), snd acc ++ [flatResult]).

(** Lines 48-60.  Only an array has a callable [forEach]. *)
Definition scan_results (results : option json) : completion (list string * list object) :=
  match results with
  | Some (JArr elems) => Normal (fold_left scan_result elems ([], []))
  | _ => Throw TypeError
  end.

(** Line 65: [row[header] || ""]. *)
Definition cell (row : object) (header : string) : value :=
  let v := obj_get row header in
  if ToBoolean v then v else VJson (JStr EmptyString).

Definition rowValues (headers : list string) (row : object) : list value :=
  map (cell row) headers.

(** Line 66, the chunk of one row. *)
Definition row_chunk (headers : list string) (row : object) : completion string :=
  s <- join_values (rowValues headers row) ;; Normal (s +++ newline).

(** Line 62, the chunk of the header row. *)
Definition header_chunk (headers : list string) : string :=
  join "," headers +++ newline.

(** The stage's effects inside [flush]: the chunks pushed so far, and a
    normal or abrupt end. *)
Definition stage (A : Type) : Type := list string -> list string * completion A.

Definition ret {A : Type} (a : A) : stage A := fun out => (out, Normal a).

Definition lift {A : Type} (c : completion A) : stage A := fun out => (out, c).

Definition push (chunk : string) : stage unit := fun out => (out ++ [chunk], Normal tt).

Definition bind_stage {A B : Type} (m : stage A) (k : A -> stage B) : stage B :=
  fun out =>
    match m out with
    | (out', Normal a) => k a out'
    | (out', Throw e) => (out', Throw e)
    end.

Notation "x <~ m ;; k" := (bind_stage m (fun x => k))
  (at level 61, m at next level, right associativity).

(** Lines 64-67. *)
Fixpoint push_rows (headers : list string) (rows : list object) : stage unit :=
  match rows with
  | [] => ret tt
  | row :: tl =>
      chunk <~ lift (row_chunk headers row) ;;
      _ <~ push chunk ;;
      push_rows headers tl
  end.

(** Lines 44-68, the body of the [try]. *)
Definition flush_body (jsonBuffer : string) : stage unit :=
  parsed <~ lift match JSON_parse jsonBuffer with
                 | Some j => Normal j
                 | None => Throw SyntaxError
                 end ;;
  results <~ lift (get_results parsed) ;;
  len <~ lift (get_length results) ;;
  nonempty <~ lift (greater_than_zero len) ;;
  if (nonempty : bool) then
    scanned <~ lift (scan_results results) ;;
    _ <~ push (header_chunk (fst scanned)) ;;
    push_rows (fst scanned) (snd scanned)
  else ret tt.

(** What a flush leaves behind: the chunks pushed, and the argument of
    [callback] ([None] for [callback()], the caught error otherwise). *)
Record outcome : Type := mkOutcome {
  pushed : list string;
  callback : option js_error
}.

(** Lines 42-74. *)
Definition flush (jsonBuffer : string) : outcome :=
  match flush_body jsonBuffer [] with
  | (out, Normal _) => mkOutcome out None
  | (out, Throw err) => mkOutcome out (Some err)
  end.

(** Lines 38-41: the buffer after one more chunk,
    [jsonBuffer += chunk.toString()]. *)
Definition transform (jsonBuffer : string) (chunk : Buffer) : string :=
  jsonBuffer +++ Buffer_toString chunk.

(** A stage made by [json2csv()], fed the chunks in order and then ended. *)
Definition json2csv (chunks : list Buffer) : outcome :=
  flush (fold_left transform chunks EmptyString).

(** Lines 47-70 on their own: the flush once the document is parsed and
    [results] read. *)
Definition flush_results (results : option json) : list string * completion unit :=
  match get_length results with
  | Throw e => ([], Throw e)
  | Normal len =>
      match greater_than_zero len with
      | Throw e => ([], Throw e)
      | Normal false => ([], Normal tt)
      | Normal true =>
          match scan_results results with
          | Throw e => ([], Throw e)
          | Normal scanned => push_rows (fst scanned) (snd scanned) [header_chunk (fst scanned)]
          end
      end
  end.

Definition settle (r : list string * completion unit) : outcome :=
  match r with
  | (out, Normal _) => mkOutcome out None
  | (out, Throw err) => mkOutcome out (Some err)
  end.

(** The values of [results] that are no array and make [results.length > 0]
    false without further conversion: a number, a boolean, the empty string,
    an object with no [length] of its own. *)
Definition skipped_silently (results : json) : bool :=
  match results with
  | JNum _ => true
  | JBool _ => true
  | JStr s => String.eqb s EmptyString
  | JObj props => negb (has_key "length" props)
  | _ => false
  end.

Definition is_array (results : option json) : bool :=
  match results with
  | Some (JArr _) => true
  | _ => false
  end.

(** Whether [json.results] can be read and is an array. *)
Definition results_is_array (parsed : json) : bool :=
  match get_results parsed with
  | Normal results => is_array results
  | Throw _ => false
  end.

(** ** The driver, lines 78-98 *)

Inductive settled : Type := Fulfilled | Rejected (e : js_error).

(** [pipeline(response.data, json2csv(), fileStream)] as far as the stage
    decides it: the promise is rejected with the error the stage reports. *)
Definition pipeline (chunks : list Buffer) : settled :=
  match callback (json2csv chunks) with
  | None => Fulfilled
  | Some e => Rejected e
  end.

Inductive console_line : Type :=
| Log_file_written
| Log_time_spent
| Error_unexpected (e : js_error).

Definition main (chunks : list Buffer) : list console_line :=
  match pipeline chunks with
  | Fulfilled => [Log_file_written; Log_time_spent]
  | Rejected e => [Error_unexpected e]
  end.

End Stage.

(** ** The platform on the documents of the examples

    The values the platform functions take on the texts used below: enough
    of [JSON.parse] to read the example documents, the decoding of the
    Buffers whose text the strings of the model can hold, the conversion of
    a text to a number, and the function members of [Array.prototype]. *)

Module Sample.

Definition quoted (s : string) : string :=
  String "034" EmptyString +++ s +++ String "034" EmptyString.

(** [{}] *)
Definition text_no_results : string := "{}".
Definition doc_no_results : json := JObj [].

(** [{"results":5}] *)
Definition text_number_results : string := "{" +++ quoted "results" +++ ":5}".
Definition doc_number_results : json := JObj [("results", JNum 5)].

(** [{"results":[]}] *)
Definition text_empty_results : string := "{" +++ quoted "results" +++ ":[]}".
Definition doc_empty_results : json := JObj [("results", JArr [])].

(** [{"results":[{"a":1},{"b":2}]}] *)
Definition text_two_records : string :=
  "{" +++ quoted "results" +++ ":[{" +++ quoted "a" +++ ":1},{" +++ quoted "b" +++ ":2}]}".
Definition doc_two_records : json :=
  JObj [("results", JArr [JObj [("a", JNum 1)]; JObj [("b", JNum 2)]])].

(** [{"results":[{"a":0}]}] *)
Definition text_zero_cell : string :=
  "{" +++ quoted "results" +++ ":[{" +++ quoted "a" +++ ":0}]}".
Definition doc_zero_cell : json := JObj [("results", JArr [JObj [("a", JNum 0)]])].

(** [{"results":[{"name":{"first":"Ann"}},{"name":{"first":"Bo"}}]}] *)
Definition text_names : string :=
  "{" +++ quoted "results" +++ ":[{" +++ quoted "name" +++ ":{" +++ quoted "first" +++ ":"
  +++ quoted "Ann" +++ "}},{" +++ quoted "name" +++ ":{" +++ quoted "first" +++ ":"
  +++ quoted "Bo" +++ "}}]}".
Definition doc_names : json :=
  JObj [("results", JArr [JObj [("name", JObj [("first", JStr "Ann")])];
                          JObj [("name", JObj [("first", JStr "Bo")])]])].

(** [{"results":[{"a":[{"toString":1}]}]}] *)
Definition text_unprintable : string :=
  "{" +++ quoted "results" +++ ":[{" +++ quoted "a" +++ ":[{" +++ quoted "toString"
  +++ ":1}]}]}".
Definition doc_unprintable : json :=
  JObj [("results", JArr [JObj [("a", JArr [JObj [("toString", JNum 1)]])]])].

(** A document cut short, [{"results":[{"a":1}], which is no JSON text. *)
Definition text_truncated : string :=
  "{" +++ quoted "results" +++ ":[{" +++ quoted "a" +++ ":1}".

Definition documents : list (string * json) :=
  [ (text_no_results, doc_no_results);
    (text_number_results, doc_number_results);
    (text_empty_results, doc_empty_results);
    (text_two_records, doc_two_records);
    (text_zero_cell, doc_zero_cell);
    (text_names, doc_names);
    (text_unprintable, doc_unprintable) ].

(** [JSON.parse] on the documents above; no other text is used. *)
Definition parse (text : string) : option json := assoc text documents.

(** The Buffer holding a text of code units below 128, one byte each. *)
Definition bytes (s : string) : Buffer := list_byte_of_string s.

(** UTF-8 decoding, as far as the result is a text of the model: a byte
    below 128 is its character, a lead byte [C2] or [C3] with its
    continuation byte is the character [U+0080] to [U+00FF] they encode.
    Every other byte starts a sequence that is malformed, cut, or encodes a
    code point above [U+00FF]; the question mark stands for the code units
    it decodes to, which the strings of the model cannot hold. *)
Fixpoint decode (chunk : Buffer) : string :=
  match chunk with
  | [] => EmptyString
  | b :: tl =>
      let n := Byte.to_N b in
      if (n <? 128)%N then String (ascii_of_N n) (decode tl)
      else
        match tl with
        | b' :: tl' =>
            let n' := Byte.to_N b' in
            if ((194 <=? n) && (n <=? 195) && (128 <=? n') && (n' <=? 191))%N
            then String (ascii_of_N ((n - 192) * 64 + (n' - 128))) (decode tl')
            else String "?" (decode tl)
        | [] => String "?" EmptyString
        end
  end.

(** [StringToNumber] compared with zero.  White space is trimmed; a text
    without sign may be a binary, octal or hexadecimal integer; otherwise it
    is an optional sign followed by [Infinity] or by decimal digits with an
    optional fraction and an optional exponent.  Anything else is [NaN]. *)
Definition is_space (c : ascii) : bool :=
  let n := N_of_ascii c in
  ((n =? 9) || (n =? 10) || (n =? 11) || (n =? 12) || (n =? 13) || (n =? 32)
   || (n =? 160))%N.

Fixpoint trim_left (s : string) : string :=
  match s with
  | String c tl => if is_space c then trim_left tl else s
  | EmptyString => s
  end.

Definition reverse (s : string) : string :=
  string_of_list_ascii (rev (list_ascii_of_string s)).

Definition trim (s : string) : string := reverse (trim_left (reverse (trim_left s))).

Definition digit_in (base : N) (c : ascii) : option N :=
  let n := N_of_ascii c in
  let d := if ((48 <=? n) && (n <=? 57))%N then Some (n - 48)%N
           else if ((97 <=? n) && (n <=? 102))%N then Some (n - 87)%N
           else if ((65 <=? n) && (n <=? 70))%N then Some (n - 55)%N
           else None in
  match d with
  | Some v => if (v <? base)%N then Some v else None
  | None => None
  end.

(** The value of a text made of digits of the base only, if it is one. *)
Fixpoint radix_value (base : N) (s : string) (acc : N) : option N :=
  match s with
  | EmptyString => Some acc
  | String c tl =>
      match digit_in base c with
      | Some d => radix_value base tl (base * acc + d)%N
      | None => None
      end
  end.

Definition radix_positive (base : N) (digits : string) : bool :=
  match digits with
  | EmptyString => false
  | _ => match radix_value base digits 0 with
         | Some n => (0 <? n)%N
         | None => false
         end
  end.

(** The leading decimal digits of a text: their value on top of [acc], how
    many they are, and what follows them. *)
Fixpoint take_digits (s : string) (acc : N) (count : nat) : N * nat * string :=
  match s with
  | String c tl =>
      match digit_of c with
      | Some d => take_digits tl (10 * acc + d)%N (S count)
      | None => (acc, count, s)
      end
  | EmptyString => (acc, count, s)
  end.

(** The exponent part that ends a decimal literal, zero when there is none. *)
Definition exponent (s : string) : option Z :=
  match s with
  | EmptyString => Some 0%Z
  | String c tl =>
      if (Ascii.eqb c "e" || Ascii.eqb c "E")%bool then
        let '(negative, digits) :=
          match tl with
          | String "-" tl' => (true, tl')
          | String "+" tl' => (false, tl')
          | _ => (false, tl)
          end in
        match take_digits digits 0 0 with
        | (_, O, _) => None
        | (n, _, EmptyString) => Some (if negative then - Z.of_N n else Z.of_N n)%Z
        | _ => None
        end
      else None
  end.

(** Whether [mantissa * 10^e] rounds to a double above zero: the halfway
    point below the least double, [2^-1075], rounds to zero. *)
Definition rounds_above_zero (mantissa : N) (e : Z) : bool :=
  if (mantissa =? 0)%N then false
  else if (0 <=? e)%Z then true
  else (10 ^ (- e) <? Z.of_N mantissa * 2 ^ 1075)%Z.

Definition unsigned_decimal_positive (s : string) : bool :=
  if String.eqb s "Infinity" then true
  else
    let '(int_value, int_count, rest) := take_digits s 0 0 in
    let '(mantissa, frac_count, rest') :=
      match rest with
      | String "." tl => take_digits tl int_value 0
      | _ => (int_value, O, rest)
      end in
    match (int_count + frac_count)%nat with
    | O => false
    | _ => match exponent rest' with
           | Some e => rounds_above_zero mantissa (e - Z.of_nat frac_count)
           | None => false
           end
    end.

Definition positive (s : string) : bool :=
  match trim s with
  | String "0" (String c digits) =>
      if (Ascii.eqb c "x" || Ascii.eqb c "X")%bool then radix_positive 16 digits
      else if (Ascii.eqb c "o" || Ascii.eqb c "O")%bool then radix_positive 8 digits
      else if (Ascii.eqb c "b" || Ascii.eqb c "B")%bool then radix_positive 2 digits
      else unsigned_decimal_positive (trim s)
  | String "-" _ => false
  | String "+" tl => unsigned_decimal_positive tl
  | t => unsigned_decimal_positive t
  end.

Definition Array_functions : list string :=
  [ "at"; "concat"; "copyWithin"; "entries"; "every"; "fill"; "filter"; "find";
    "findIndex"; "findLast"; "findLastIndex"; "flat"; "flatMap"; "forEach";
    "includes"; "indexOf"; "join"; "keys"; "lastIndexOf"; "map"; "pop"; "push";
    "reduce"; "reduceRight"; "reverse"; "shift"; "slice"; "some"; "sort";
    "splice"; "toLocaleString"; "toReversed"; "toSorted"; "toSpliced";
    "toString"; "unshift"; "values"; "with" ].

Definition node : Platform :=
  {| JSON_parse := parse;
     Buffer_toString := decode;
     StringToNumber_positive := positive;
     Array_prototype_functions := Array_functions |}.

Definition flush : string -> outcome := @flush node.

Definition json2csv : list Buffer -> outcome := @json2csv node.

Definition main : list Buffer -> list console_line := @main node.

End Sample.

(** [Sample.node] reading one more document, [{"results":"abc"}]. *)
Definition text_string_results : string :=
  "{" +++ Sample.quoted "results" +++ ":" +++ Sample.quoted "abc" +++ "}".

Definition node_with_string_results : Platform :=
  {| JSON_parse := fun text =>
       if String.eqb text text_string_results then Some (JObj [("results", JStr "abc")])
       else Sample.parse text;
     Buffer_toString := Sample.decode;
     StringToNumber_positive := Sample.positive;
     Array_prototype_functions := Sample.Array_functions |}.

(** * Properties *)

(** ** Association lists and property order *)

Lemma assoc_app {A : Type} (k : string) (l1 l2 : list (string * A)) :
  assoc k (l1 ++ l2) = match assoc k l1 with Some v => Some v | None => assoc k l2 end.
Proof.
  induction l1 as [|[k1 v1] l1 IH]; simpl; [reflexivity|].
  destruct (String.eqb k k1); [reflexivity | exact IH].
Qed.

Lemma assoc_None_not_In {A : Type} (k : string) (ps : list (string * A)) :
  ~ In k (map fst ps) -> assoc k ps = None.
Proof.
  induction ps as [|[k1 v1] ps IH]; simpl; intros H; [reflexivity|].
  destruct (String.eqb_spec k k1) as [->|_].
  - exfalso. apply H. now left.
  - apply IH. intros Hin. apply H. now right.
Qed.

Lemma assoc_update {A : Type} (k k0 : string) (v : A) (ps : list (string * A)) :
  has_key k0 ps = true ->
  assoc k (update k0 v ps) = if String.eqb k k0 then Some v else assoc k ps.
Proof.
  unfold has_key.
  induction ps as [|[k1 v1] ps IH]; simpl; [discriminate|].
  destruct (String.eqb_spec k0 k1) as [->|Hne]; simpl; intros H.
  - destruct (String.eqb k k1); reflexivity.
  - rewrite (IH H).
    destruct (String.eqb_spec k k1) as [->|_]; [|reflexivity].
    destruct (String.eqb_spec k1 k0) as [E|_]; [now elim Hne | reflexivity].
Qed.

Lemma assoc_insert_index {A : Type} (k k0 : string) (i : N) (v : A) (ps : list (string * A)) :
  assoc k0 ps = None ->
  assoc k (insert_index i k0 v ps) = if String.eqb k k0 then Some v else assoc k ps.
Proof.
  induction ps as [|[k1 v1] ps IH]; simpl; [reflexivity|].
  destruct (String.eqb_spec k0 k1) as [->|Hne]; [discriminate|]. intros HN.
  destruct (array_index k1) as [j|]; [destruct (j <? i)%N|]; simpl; try reflexivity.
  rewrite (IH HN).
  destruct (String.eqb_spec k k1) as [->|_]; [|reflexivity].
  destruct (String.eqb_spec k1 k0) as [E|_]; [now elim Hne | reflexivity].
Qed.

Lemma assoc_define_new {A : Type} (k k0 : string) (v : A) (ps : list (string * A)) :
  assoc k0 ps = None ->
  assoc k (define_new k0 v ps) = if String.eqb k k0 then Some v else assoc k ps.
Proof.
  intros HN. unfold define_new. destruct (array_index k0) as [i|].
  - now apply assoc_insert_index.
  - rewrite assoc_app. simpl. destruct (String.eqb_spec k k0) as [->|_].
    + now rewrite HN.
    + now destruct (assoc k ps).
Qed.

(** Reading back an own property after [res[k0] = v], for any key but
    [__proto__]. *)
Lemma assoc_obj_assign (o : object) (k k0 : string) (v : json) :
  k0 <> proto_key ->
  assoc k (own (obj_assign o k0 v)) = if String.eqb k k0 then Some v else assoc k (own o).
Proof.
  intros Hk. unfold obj_assign.
  destruct (has_key k0 (own o)) eqn:Hhas; simpl.
  - now apply assoc_update.
  - assert (HN : assoc k0 (own o) = None).
    { unfold has_key in Hhas. now destruct (assoc k0 (own o)). }
    destruct (String.eqb_spec k0 proto_key) as [E|_]; [now elim Hk|].
    simpl. now apply assoc_define_new.
Qed.

Lemma prototype_obj_assign (o : object) (k0 : string) (v : json) :
  k0 <> proto_key -> prototype (obj_assign o k0 v) = prototype o.
Proof.
  intros Hk. unfold obj_assign.
  destruct (has_key k0 (own o)); [reflexivity|].
  destruct (String.eqb_spec k0 proto_key) as [E|_]; [now elim Hk | reflexivity].
Qed.

(** ** The Flattener *)

(** The [for..in] loop over an object is a left fold of the loop body. *)
Lemma flattenObject_JObj (props : list (string * json)) (parent : string) (res : object) :
  flattenObject (JObj props) parent res
  = fold_left (fun r kv => visit (snd kv) (propName parent (fst kv)) r) props res.
Proof.
  revert res. induction props as [|[key v] tl IH]; intros res; [reflexivity|].
  simpl fold_left. rewrite <- IH. reflexivity.
Qed.

Lemma flattenObject_app (before after : list (string * json)) (parent : string) (res : object) :
  flattenObject (JObj (before ++ after)) parent res
  = flattenObject (JObj after) parent (flattenObject (JObj before) parent res).
Proof. rewrite !flattenObject_JObj. apply fold_left_app. Qed.

Lemma flattenObject_cons (key : string) (v : json) (after : list (string * json))
    (parent : string) (res : object) :
  flattenObject (JObj ((key, v) :: after)) parent res
  = flattenObject (JObj after) parent (visit v (propName parent key) res).
Proof. rewrite !flattenObject_JObj. reflexivity. Qed.

Lemma visit_leaf (v : json) (name : string) (res : object) :
  is_plain_object v = false -> visit v name res = obj_assign res name v.
Proof. destruct v; simpl; intros H; try reflexivity; discriminate. Qed.

Lemma leaves_cons (key : string) (v : json) (tl : list (string * json)) (parent : string) :
  leaves (JObj ((key, v) :: tl)) parent
  = (if is_plain_object v then leaves v (propName parent key)
     else [(propName parent key, v)]) ++ leaves (JObj tl) parent.
Proof. destruct v; reflexivity. Qed.

(** Induction on documents, with the hypothesis available for the elements of
    an array and for the values of an object's properties. *)
Lemma json_nested_ind (P : json -> Prop) :
  P JNull -> (forall b, P (JBool b)) -> (forall n, P (JNum n)) -> (forall s, P (JStr s)) ->
  (forall elems, (forall e, In e elems -> P e) -> P (JArr elems)) ->
  (forall props, (forall key v, In (key, v) props -> P v) -> P (JObj props)) ->
  forall v, P v.
Proof.
  intros HNull HBool HNum HStr HArr HObj.
  fix IH 1.
  intros [| b | n | s | elems | props];
    [exact HNull | apply HBool | apply HNum | apply HStr | apply HArr | apply HObj].
  - induction elems as [|e0 tl IHtl]; intros e Hin.
    + destruct Hin.
    + destruct Hin as [<-|Hin]; [apply IH | exact (IHtl e Hin)].
  - induction props as [|[k0 v0] tl IHtl]; intros key v Hin.
    + destruct Hin.
    + destruct Hin as [E|Hin].
      * injection E as _ <-. apply IH.
      * exact (IHtl key v Hin).
Qed.

(** [flattenObject] assigns the leaves in document order into [res]. *)
Lemma flattenObject_leaves (v : json) :
  forall parent res, flattenObject v parent res = assign_all res (leaves v parent)
                     \/ is_plain_object v = false.
Proof.
  induction v as [| | | | elems _ |props IH] using json_nested_ind; intros parent res;
    try (right; reflexivity).
  left. revert res. induction props as [|[key v] tl IHtl]; intros res; [reflexivity|].
  rewrite flattenObject_cons, leaves_cons. unfold assign_all.
  rewrite fold_left_app. fold (assign_all res).
  assert (Hv : visit v (propName parent key) res
               = assign_all res (if is_plain_object v then leaves v (propName parent key)
                                 else [(propName parent key, v)])).
  { destruct (is_plain_object v) eqn:Hp.
    - destruct (IH key v (or_introl eq_refl) (propName parent key) res) as [E|E].
      + destruct v; try discriminate. exact E.
      + congruence.
    - now rewrite visit_leaf. }
  rewrite Hv. apply IHtl. intros k' v' Hin. apply (IH k' v'). now right.
Qed.

Lemma propName_top (key : string) : propName EmptyString key = key.
Proof. reflexivity. Qed.

Lemma propName_nested (c : ascii) (parent key : string) :
  propName (String c parent) key = String c parent +++ "." +++ key.
Proof. reflexivity. Qed.

(** C6: a key whose value is a plain object is handled by flattening that
    object under the path extended with the key (the key alone at top level,
    [parent.key] below), into the accumulator the keys before it have filled
    and the keys after it go on filling; the flat record is thus the
    accumulator after assigning every leaf under its dotted path, in document
    order; and [{a: {b: 1, c: {d: 2}}}] flattens to exactly
    [{"a.b": 1, "a.c.d": 2}]. *)
Theorem C6_flattenObject_nested_object :
  (forall before key nested after parent res,
     flattenObject (JObj (before ++ (key, JObj nested) :: after)) parent res
     = flattenObject (JObj after) parent
         (flattenObject (JObj nested) (propName parent key)
            (flattenObject (JObj before) parent res)))
  /\ (forall key, propName EmptyString key = key)
  /\ (forall c parent key, propName (String c parent) key = String c parent +++ "." +++ key)
  /\ (forall props parent res,
        flattenObject (JObj props) parent res = assign_all res (leaves (JObj props) parent))
  /\ flatten (JObj [("a", JObj [("b", JNum 1); ("c", JObj [("d", JNum 2)])])])
     = mkObject [("a.b", JNum 1); ("a.c.d", JNum 2)] ProtoObject.
Proof.
  split; [|split; [|split; [|split]]].
  - intros. now rewrite flattenObject_app, flattenObject_cons.
  - exact propName_top.
  - exact propName_nested.
  - intros props parent res.
    destruct (flattenObject_leaves (JObj props) parent res) as [E|E];
      [exact E | discriminate].
  - reflexivity.
Qed.

(** One turn of the loop at a key whose value is no plain object: the single
    assignment [res[propName] = value], with the value unchanged, between the
    keys before and the keys after; read back right afterwards, the
    accumulator holds the value under any path but [__proto__]. *)
Lemma flattenObject_leaf_step :
  (forall before key v after parent res,
     is_plain_object v = false ->
     flattenObject (JObj (before ++ (key, v) :: after)) parent res
     = flattenObject (JObj after) parent
         (obj_assign (flattenObject (JObj before) parent res) (propName parent key) v)
     /\ leaves (JObj [(key, v)]) parent = [(propName parent key, v)]
     /\ (propName parent key <> proto_key ->
         assoc (propName parent key)
           (own (obj_assign (flattenObject (JObj before) parent res) (propName parent key) v))
         = Some v))
  /\ flatten (JObj [("a", JArr [JNum 1; JNum 2; JNum 3])])
     = mkObject [("a", JArr [JNum 1; JNum 2; JNum 3])] ProtoObject.
Proof.
  split; [|reflexivity].
  intros before key v after parent res Hleaf. split; [|split].
  - now rewrite flattenObject_app, flattenObject_cons, visit_leaf.
  - rewrite leaves_cons, Hleaf. reflexivity.
  - intros Hk. rewrite assoc_obj_assign by exact Hk. now rewrite String.eqb_refl.
Qed.

(** C7 at the failing input: in the record [{"__proto__": [1,2,3]}] the
    value is an array, yet the assignment of line 26 does not store it under
    its key: it runs the prototype setter, so that the flat record has no
    key at all and the array has become its prototype. *)
Theorem C7_proto_array_lost :
  is_plain_object (JArr [JNum 1; JNum 2; JNum 3]) = false
  /\ flatten (JObj [(proto_key, JArr [JNum 1; JNum 2; JNum 3])])
     = mkObject [] (ProtoArray [JNum 1; JNum 2; JNum 3])
  /\ Object_keys (flatten (JObj [(proto_key, JArr [JNum 1; JNum 2; JNum 3])])) = []
  /\ map fst [(proto_key, JArr [JNum 1; JNum 2; JNum 3])] = ["__proto__"].
Proof. repeat split. Qed.

(** C10, as the code has it: an empty nested object leaves no trace.  The
    flat record of a record holding [key: {}] is the flat record of the same
    record without that key, whatever the other keys are, so the key adds
    nothing to the leaves, to the header scan or to the rows. *)
Theorem C10_empty_object_dropped :
  forall before key after parent res acc,
    flattenObject (JObj (before ++ (key, JObj []) :: after)) parent res
    = flattenObject (JObj (before ++ after)) parent res
    /\ leaves (JObj [(key, JObj [])]) parent = []
    /\ scan_result acc (JObj (before ++ (key, JObj []) :: after))
       = scan_result acc (JObj (before ++ after)).
Proof.
  intros before key after parent res acc.
  assert (H : forall parent res,
             flattenObject (JObj (before ++ (key, JObj []) :: after)) parent res
             = flattenObject (JObj (before ++ after)) parent res).
  { intros p r. now rewrite !flattenObject_app, flattenObject_cons. }
  split; [apply H | split; [reflexivity|]].
  unfold scan_result, flatten. now rewrite H.
Qed.

(** C10 as stated fails: with [{"a": {}, "a.b": 1}] the flat record has the
    key ["a.b"], which begins with ["a."]; with a record whose empty-string
    key holds [{"a": 1}] and whose key ["a"] holds [{}], it has the key ["a"]
    itself. *)
Lemma C10_counterexample :
  Object_keys (flatten (JObj [("a", JObj []); ("a.b", JNum 1)])) = ["a.b"]
  /\ String.prefix ("a" +++ ".") "a.b" = true
  /\ Object_keys (flatten (JObj [(EmptyString, JObj [("a", JNum 1)]); ("a", JObj [])])) = ["a"].
Proof. repeat split; reflexivity. Qed.

Lemma flattenObject_depth0 (props : list (string * json)) :
  forall res,
    Forall (fun kv => is_plain_object (snd kv) = false) props ->
    NoDup (map fst props) ->
    ~ In proto_key (map fst props) ->
    (forall k, assoc k (own (flattenObject (JObj props) EmptyString res))
               = match assoc k props with Some v => Some v | None => assoc k (own res) end)
    /\ prototype (flattenObject (JObj props) EmptyString res) = prototype res.
Proof.
  induction props as [|[key v] tl IH]; intros res Hleaf Hnd Hproto.
  - split; reflexivity.
  - inversion Hleaf as [|? ? Hv Htl]; subst. inversion Hnd as [|? ? Hnotin Hnd']; subst.
    simpl in Hv, Hnotin, Hproto.
    assert (Hkey : key <> proto_key) by (intros E; apply Hproto; now left).
    assert (Hrest : ~ In proto_key (map fst tl)) by (intros E; apply Hproto; now right).
    rewrite flattenObject_cons, visit_leaf, propName_top by exact Hv.
    destruct (IH (obj_assign res key v) Htl Hnd' Hrest) as [IHa IHp].
    split.
    + intros k. rewrite IHa. simpl. rewrite assoc_obj_assign by exact Hkey.
      destruct (String.eqb_spec k key) as [->|_]; [|reflexivity].
      now rewrite (assoc_None_not_In _ _ Hnotin).
    + rewrite IHp. now apply prototype_obj_assign.
Qed.

Lemma assoc_In_iff {A : Type} (k : string) (ps : list (string * A)) :
  In k (map fst ps) <-> assoc k ps <> None.
Proof.
  induction ps as [|[k1 v1] ps IH]; simpl.
  - split; [intros [] | intros H; now elim H].
  - destruct (String.eqb_spec k k1) as [->|Hne].
    + split; [discriminate | now left].
    + rewrite <- IH. split; [intros [E|H]; [now elim Hne | exact H] | now right].
Qed.

(** On a record whose values are all scalars, [null] or arrays and that has
    no key named [__proto__], the flat record has the same keys with the same
    values, and still [Object.prototype] as its prototype. *)
Theorem flatten_depth0_identity :
  forall props,
    Forall (fun kv => is_plain_object (snd kv) = false) props ->
    NoDup (map fst props) ->
    ~ In proto_key (map fst props) ->
    (forall k, assoc k (own (flatten (JObj props))) = assoc k props)
    /\ (forall k, In k (Object_keys (flatten (JObj props))) <-> In k (map fst props))
    /\ prototype (flatten (JObj props)) = ProtoObject.
Proof.
  intros props Hleaf Hnd Hproto.
  destruct (flattenObject_depth0 props empty_object Hleaf Hnd Hproto) as [Ha Hp].
  assert (Hassoc : forall k, assoc k (own (flatten (JObj props))) = assoc k props).
  { intros k. unfold flatten. rewrite Ha. simpl. now destruct (assoc k props). }
  split; [exact Hassoc | split; [|exact Hp]].
  intros k. unfold Object_keys. now rewrite !assoc_In_iff, Hassoc.
Qed.

Lemma flatten_depth0_identity_witness :
  (forall k, assoc k (own (flatten (JObj [("id", JNum 7); ("tags", JArr [JStr "x"])])))
             = assoc k [("id", JNum 7); ("tags", JArr [JStr "x"])])
  /\ (forall k, In k (Object_keys (flatten (JObj [("id", JNum 7); ("tags", JArr [JStr "x"])])))
                <-> In k (map fst [("id", JNum 7); ("tags", JArr [JStr "x"])]))
  /\ prototype (flatten (JObj [("id", JNum 7); ("tags", JArr [JStr "x"])])) = ProtoObject.
Proof.
  apply (flatten_depth0_identity [("id", JNum 7); ("tags", JArr [JStr "x"])]).
  - repeat constructor.
  - repeat constructor; simpl; intuition discriminate.
  - simpl. intuition discriminate.
Defined.

(** C8 at the failing input: the record [{"__proto__": 1}] holds scalars
    only, yet its flat record has no key at all, because the assignment
    [res["__proto__"] = 1] of line 26 runs the prototype setter, which
    ignores a number. *)
Theorem C8_proto_key_lost :
  Forall (fun kv => is_plain_object (snd kv) = false) [(proto_key, JNum 1)]
  /\ flatten (JObj [(proto_key, JNum 1)]) = empty_object
  /\ Object_keys (flatten (JObj [(proto_key, JNum 1)])) = []
  /\ map fst [(proto_key, JNum 1)] = ["__proto__"].
Proof. repeat split. repeat constructor. Qed.

(** ** The header set *)

Lemma filter_twice {A : Type} (p q : A -> bool) (l : list A) :
  filter p (filter q l) = filter (fun a => q a && p a) l.
Proof.
  induction l as [|x tl IH]; [reflexivity|]. simpl.
  destruct (q x); simpl; [destruct (p x)|]; now rewrite IH.
Qed.

Lemma filter_first_seen (p : string -> bool) (l : list string) :
  filter p (first_seen l) = first_seen (filter p l).
Proof.
  induction l as [|x tl IH]; [reflexivity|]. simpl.
  destruct (p x) eqn:Hpx; simpl.
  - f_equal. rewrite <- IH. rewrite !filter_twice. apply filter_ext.
    intros a. apply andb_comm.
  - rewrite <- IH. rewrite filter_twice. apply filter_ext.
    intros a. destruct (String.eqb_spec a x) as [->|_]; simpl.
    + now rewrite Hpx.
    + reflexivity.
Qed.

Lemma includes_app (l1 l2 : list string) (k : string) :
  includes (l1 ++ l2) k = includes l1 k || includes l2 k.
Proof. unfold includes. apply existsb_app. Qed.

Lemma includes_In (l : list string) (k : string) : includes l k = true <-> In k l.
Proof.
  unfold includes. rewrite existsb_exists. split.
  - intros [x [Hin E]]. apply String.eqb_eq in E. now subst.
  - intros Hin. exists k. split; [exact Hin | apply String.eqb_refl].
Qed.

(** The scan of lines 55-59 adds to [headers] the new keys of [l] in the
    order of their first occurrence. *)
Lemma fold_add_header (l headers : list string) :
  fold_left add_header l headers
  = headers ++ first_seen (filter (fun k => negb (includes headers k)) l).
Proof.
  revert headers. induction l as [|k tl IH]; intros headers; simpl.
  - now rewrite app_nil_r.
  - unfold add_header at 2. destruct (includes headers k) eqn:Hin; simpl.
    + apply IH.
    + rewrite IH, <- app_assoc. simpl. do 2 f_equal.
      rewrite filter_first_seen, filter_twice. f_equal. apply filter_ext.
      intros a. rewrite includes_app. unfold includes at 2. simpl.
      now rewrite orb_false_r, negb_orb.
Qed.

Lemma first_seen_In (l : list string) (k : string) : In k (first_seen l) <-> In k l.
Proof.
  induction l as [|x tl IH]; simpl; [reflexivity|].
  rewrite filter_In, IH. destruct (String.eqb_spec k x) as [->|Hne]; simpl.
  - split; [now left | now left].
  - split.
    + intros [E|[H _]]; [now left | now right].
    + intros [E|H]; [now elim Hne | right; now split].
Qed.

Lemma first_seen_NoDup (l : list string) : NoDup (first_seen l).
Proof.
  induction l as [|x tl IH]; simpl; constructor.
  - rewrite filter_In. intros [_ H]. now rewrite String.eqb_refl in H.
  - now apply NoDup_filter.
Qed.

Lemma fold_scan_result (elems : list json) (headers : list string) (rows : list object) :
  fold_left scan_result elems (headers, rows)
  = (fold_left add_header (all_keys elems) headers, rows ++ map flatten elems).
Proof.
  revert headers rows. induction elems as [|result tl IH]; intros headers rows.
  - simpl. now rewrite app_nil_r.
  - simpl fold_left. unfold scan_result at 2. simpl fst. simpl snd.
    rewrite IH. unfold all_keys. simpl. rewrite fold_left_app, <- app_assoc.
    reflexivity.
Qed.

Lemma scan_results_array (elems : list json) :
  scan_results (Some (JArr elems)) = Normal (first_seen (all_keys elems), map flatten elems).
Proof.
  unfold scan_results. rewrite fold_scan_result, fold_add_header. simpl.
  now rewrite filter_true.
Qed.

(** ** The stage *)

Lemma append_nil_r (s : string) : s +++ EmptyString = s.
Proof. induction s as [|c s IH]; simpl; [reflexivity | now rewrite IH]. Qed.

Lemma append_assoc (s1 s2 s3 : string) : (s1 +++ s2) +++ s3 = s1 +++ s2 +++ s3.
Proof. induction s1 as [|c s1 IH]; simpl; [reflexivity | now rewrite IH]. Qed.

(** The text the chunks add up to, each decoded on its own. *)
Lemma fold_transform {platform : Platform} (chunks : list Buffer) (jsonBuffer : string) :
  fold_left transform chunks jsonBuffer
  = jsonBuffer +++ String.concat EmptyString (map Buffer_toString chunks).
Proof.
  revert jsonBuffer. induction chunks as [|c tl IH]; intros jsonBuffer; simpl.
  - now rewrite append_nil_r.
  - rewrite IH. unfold transform. rewrite append_assoc. f_equal.
    destruct tl; simpl; [now rewrite append_nil_r | reflexivity].
Qed.

Lemma map_completion_throw {A B : Type} (f : A -> completion B) (l : list A) (e : js_error) :
  map_completion f l = Throw e -> exists a, In a l /\ f a = Throw e.
Proof.
  induction l as [|a tl IH]; simpl; [discriminate|].
  destruct (f a) as [b|e'] eqn:Hfa; simpl.
  - destruct (map_completion f tl) as [bs|e'']; simpl; [discriminate|].
    intros E. destruct (IH E) as [a' [Hin Ha']]. exists a'. split; [now right | exact Ha'].
  - intros E. injection E as <-. exists a. split; [now left | exact Hfa].
Qed.

(** Converting a document value to text can only fail with a [TypeError]. *)
Lemma ToString_error (v : json) (e : js_error) : ToString v = Throw e -> e = TypeError.
Proof.
  induction v as [| [|] | | | elems IH | props _] using json_nested_ind; simpl;
    try discriminate.
  - destruct (map_completion _ elems) as [texts|e'] eqn:Hm; simpl; [discriminate|].
    intros E. injection E as ->.
    destruct (map_completion_throw _ _ _ Hm) as [a [Hin Ha]].
    destruct a; try discriminate; now apply (IH _ Hin).
  - destruct (has_key "toString" props); [|discriminate]. intros E. now injection E.
Qed.

Lemma greater_than_zero_error {platform : Platform} (x : option json) (e : js_error) :
  greater_than_zero x = Throw e -> e = TypeError.
Proof.
  unfold greater_than_zero.
  destruct x as [[| | | | elems | props]|]; try discriminate;
    match goal with
    | |- context [ToString ?v] =>
        destruct (ToString v) as [s|e'] eqn:Hs; simpl; [discriminate|];
        intros E; injection E as ->; exact (ToString_error _ _ Hs)
    end.
Qed.

Section StageProperties.

Context {platform : Platform}.

Lemma json2csv_flush (chunks : list Buffer) :
  json2csv chunks = flush (String.concat EmptyString (map Buffer_toString chunks)).
Proof. unfold json2csv. now rewrite fold_transform. Qed.

Lemma flush_parsed (jsonBuffer : string) (parsed : json) (results : option json) :
  JSON_parse jsonBuffer = Some parsed ->
  get_results parsed = Normal results ->
  flush jsonBuffer = settle (flush_results results).
Proof.
  intros Hp Hr.
  unfold flush, flush_body, bind_stage, lift, flush_results.
  rewrite Hp, Hr.
  destruct (get_length results) as [len|e]; [|reflexivity].
  destruct (greater_than_zero len) as [[|]|e]; reflexivity.
Qed.

Lemma flush_syntax_error (jsonBuffer : string) :
  JSON_parse jsonBuffer = None -> flush jsonBuffer = mkOutcome [] (Some SyntaxError).
Proof.
  intros Hp. unfold flush, flush_body, bind_stage, lift. now rewrite Hp.
Qed.

Lemma push_rows_pushed (headers : list string) (rows : list object) :
  forall out out' c,
    push_rows headers rows out = (out', c) ->
    exists chunks,
      out' = out ++ chunks
      /\ match c with
         | Normal _ => Forall2 (fun row chunk => row_chunk headers row = Normal chunk) rows chunks
         | Throw _ => List.length chunks < List.length rows
         end.
Proof.
  induction rows as [|row tl IH]; intros out out' c; simpl.
  - unfold ret. intros E. injection E as <- <-. exists []. split.
    + now rewrite app_nil_r.
    + constructor.
  - unfold bind_stage, lift, push.
    destruct (row_chunk headers row) as [chunk|e] eqn:Hrow.
    + intros E. destruct (IH _ _ _ E) as [chunks [-> Hc]].
      exists (chunk :: chunks). split.
      * now rewrite <- app_assoc.
      * destruct c; [now constructor | simpl; lia].
    + intros E. injection E as <- <-. exists []. split.
      * now rewrite app_nil_r.
      * simpl. lia.
Qed.

(** The flush on a document whose [results] is a non-empty array. *)
Lemma flush_results_array (result : json) (elems : list json) :
  flush_results (Some (JArr (result :: elems)))
  = push_rows (first_seen (all_keys (result :: elems))) (map flatten (result :: elems))
      [header_chunk (first_seen (all_keys (result :: elems)))].
Proof.
  unfold flush_results. rewrite scan_results_array.
  cbn [get_length greater_than_zero fst snd].
  replace (0 <? Z.of_nat (List.length (result :: elems)))%Z with true; [reflexivity|].
  symmetry. apply Z.ltb_lt. simpl List.length. lia.
Qed.

Lemma flush_results_not_array (results : option json) :
  is_array results = false ->
  fst (flush_results results) = []
  /\ (snd (flush_results results) = Normal tt \/ snd (flush_results results) = Throw TypeError).
Proof.
  intros Hna. unfold flush_results.
  assert (Hscan : scan_results results = Throw TypeError).
  { destruct results as [[| | | | |]|]; try reflexivity. discriminate. }
  rewrite Hscan.
  destruct (get_length results) as [len|e] eqn:Hlen.
  - destruct (greater_than_zero len) as [[|]|e] eqn:Hgt; simpl; auto.
    rewrite (greater_than_zero_error _ _ Hgt). auto.
  - simpl. split; [reflexivity|]. right. f_equal.
    destruct results as [[| | | | |]|]; simpl in Hlen; congruence.
Qed.

Lemma Forall2_map_left {A B C : Type} (f : A -> B) (R : B -> C -> Prop) (l : list A) :
  forall l', Forall2 R (map f l) l' -> Forall2 (fun a c => R (f a) c) l l'.
Proof.
  induction l as [|a tl IH]; intros l' H; inversion H; subst; constructor; auto.
Qed.

(** C3: when the buffered text is no JSON text, the flush pushes no chunk and
    hands the [SyntaxError] of [JSON.parse] to its callback; so does the
    stage for any chunks whose texts add up to that buffer, the pipeline
    promise is rejected with that error, and the driver ends in its [catch]
    branch, reporting the error instead of a written file. *)
Theorem C3_malformed_document :
  forall jsonBuffer,
    JSON_parse jsonBuffer = None ->
    flush jsonBuffer = mkOutcome [] (Some SyntaxError)
    /\ forall chunks,
         String.concat EmptyString (map Buffer_toString chunks) = jsonBuffer ->
         json2csv chunks = mkOutcome [] (Some SyntaxError)
         /\ pipeline chunks = Rejected SyntaxError
         /\ main chunks = [Error_unexpected SyntaxError].
Proof.
  intros jsonBuffer Hp. split; [now apply flush_syntax_error|].
  intros chunks Hc.
  assert (H : json2csv chunks = mkOutcome [] (Some SyntaxError)).
  { rewrite json2csv_flush, Hc. now apply flush_syntax_error. }
  unfold main, pipeline. now rewrite H.
Qed.

(** C9: when the parsed document's [results] is the empty array, as for
    [{results: []}], the flush pushes no chunk, neither header nor row, and
    calls back without an error; the pipeline promise is fulfilled. *)
Theorem C9_empty_results :
  forall jsonBuffer parsed,
    JSON_parse jsonBuffer = Some parsed ->
    get_results parsed = Normal (Some (JArr [])) ->
    flush jsonBuffer = mkOutcome [] None
    /\ forall chunks,
         String.concat EmptyString (map Buffer_toString chunks) = jsonBuffer ->
         json2csv chunks = mkOutcome [] None /\ pipeline chunks = Fulfilled.
Proof.
  intros jsonBuffer parsed Hp Hr.
  assert (H : flush jsonBuffer = mkOutcome [] None).
  { now rewrite (flush_parsed _ _ _ Hp Hr). }
  split; [exact H|]. intros chunks Hc.
  assert (H' : json2csv chunks = mkOutcome [] None) by now rewrite json2csv_flush, Hc.
  unfold pipeline. now rewrite H'.
Qed.

Lemma flush_results_unreadable (jsonBuffer : string) (parsed : json) (e : js_error) :
  JSON_parse jsonBuffer = Some parsed ->
  get_results parsed = Throw e ->
  flush jsonBuffer = mkOutcome [] (Some e).
Proof.
  intros Hp Hr. unfold flush, flush_body, bind_stage, lift. now rewrite Hp, Hr.
Qed.

(** C1, as the code has it: when [results] is no array, no chunk is pushed,
    and the flush ends either silently or with a [TypeError] handed to the
    callback.  It ends with the [TypeError] when [results] is absent or
    [null] (or the document itself is [null]), since reading
    [results.length] throws; it ends silently when [results] is a number, a
    boolean, the empty string or an object with no [length] of its own. *)
Theorem C1_results_not_a_sequence :
  forall jsonBuffer parsed,
    JSON_parse jsonBuffer = Some parsed ->
    results_is_array parsed = false ->
    pushed (flush jsonBuffer) = []
    /\ (callback (flush jsonBuffer) = None \/ callback (flush jsonBuffer) = Some TypeError)
    /\ (get_results parsed = Throw TypeError
        \/ get_results parsed = Normal None
        \/ get_results parsed = Normal (Some JNull) ->
        flush jsonBuffer = mkOutcome [] (Some TypeError))
    /\ (forall r, get_results parsed = Normal (Some r) -> skipped_silently r = true ->
        flush jsonBuffer = mkOutcome [] None).
Proof.
  intros jsonBuffer parsed Hp Hna. unfold results_is_array in Hna.
  destruct (get_results parsed) as [results|e] eqn:Hr.
  - rewrite (flush_parsed _ _ _ Hp Hr).
    destruct (flush_results_not_array results Hna) as [Hout Hc].
    split; [|split; [|split]].
    + destruct (flush_results results) as [out [u|e]]; simpl in *; now subst.
    + destruct (flush_results results) as [out c]; simpl in *.
      destruct Hc as [->| ->]; simpl; auto.
    + intros [E|[E|E]]; [discriminate | | ]; injection E as ->; reflexivity.
    + intros r E Hs. injection E as ->. unfold flush_results.
      destruct r as [| b | n | s | elems | props]; try discriminate; try reflexivity.
      * simpl in Hs. apply String.eqb_eq in Hs. now subst s.
      * simpl in Hs. unfold has_key in Hs. simpl.
        destruct (assoc "length" props); [discriminate | reflexivity].
  - assert (He : e = TypeError) by (destruct parsed; simpl in Hr; congruence). subst e.
    rewrite (flush_results_unreadable _ _ _ Hp Hr).
    repeat split; auto. intros r E. discriminate.
Qed.

(** C5, as the code has it: line 39 decodes every chunk on its own, and what
    the stage emits depends on the chunks only through the concatenation of
    those decoded texts: two sequences of chunks whose decoded texts add up
    to the same buffer give the same output.  When [results] is a non-empty
    array and the flush ends without an error, the chunks pushed are the
    header row, built from the keys of all records, followed by exactly one
    row per element of [results], in the order of the array. *)
Theorem C5_chunk_boundaries :
  (forall chunks1 chunks2,
     String.concat EmptyString (map Buffer_toString chunks1)
     = String.concat EmptyString (map Buffer_toString chunks2) ->
     json2csv chunks1 = json2csv chunks2)
  /\ (forall chunks parsed result elems,
        JSON_parse (String.concat EmptyString (map Buffer_toString chunks)) = Some parsed ->
        get_results parsed = Normal (Some (JArr (result :: elems))) ->
        callback (json2csv chunks) = None ->
        exists rows,
          pushed (json2csv chunks)
          = header_chunk (first_seen (all_keys (result :: elems))) :: rows
          /\ Forall2
               (fun r chunk =>
                  row_chunk (first_seen (all_keys (result :: elems))) (flatten r)
                  = Normal chunk)
               (result :: elems) rows).
Proof.
  split.
  - intros chunks1 chunks2 H. now rewrite !json2csv_flush, H.
  - intros chunks parsed result elems Hp Hr.
    rewrite json2csv_flush, (flush_parsed _ _ _ Hp Hr), flush_results_array.
    destruct (push_rows _ _ _) as [out c] eqn:E.
    destruct (push_rows_pushed _ _ _ _ _ E) as [rows [-> Hrows]].
    destruct c as [u|e]; simpl; [|discriminate]. intros _.
    exists rows. split; [reflexivity|].
    exact (Forall2_map_left flatten
             (fun row chunk => row_chunk (first_seen (all_keys (result :: elems))) row
                               = Normal chunk) _ _ Hrows).
Qed.

End StageProperties.

(** ** The claims on the example documents *)

Lemma C3_witness :
  Sample.flush Sample.text_truncated = mkOutcome [] (Some SyntaxError)
  /\ Sample.json2csv
       [Sample.bytes "{";
        Sample.bytes (Sample.quoted "results" +++ ":[{" +++ Sample.quoted "a" +++ ":1}")]
     = mkOutcome [] (Some SyntaxError)
  /\ Sample.main
       [Sample.bytes "{";
        Sample.bytes (Sample.quoted "results" +++ ":[{" +++ Sample.quoted "a" +++ ":1}")]
     = [Error_unexpected SyntaxError].
Proof.
  destruct (@C3_malformed_document Sample.node Sample.text_truncated eq_refl) as [H1 H2].
  destruct (H2 [Sample.bytes "{";
                Sample.bytes (Sample.quoted "results" +++ ":[{" +++ Sample.quoted "a"
                              +++ ":1}")]
              eq_refl) as [H3 [_ H4]].
  split; [exact H1 | split; [exact H3 | exact H4]].
Defined.

Lemma C9_witness :
  Sample.flush Sample.text_empty_results = mkOutcome [] None
  /\ Sample.json2csv [Sample.bytes ("{" +++ Sample.quoted "results"); Sample.bytes ":[]}"]
     = mkOutcome [] None.
Proof.
  destruct (@C9_empty_results Sample.node Sample.text_empty_results
              Sample.doc_empty_results eq_refl eq_refl) as [H1 H2].
  split; [exact H1|].
  exact (proj1 (H2 [Sample.bytes ("{" +++ Sample.quoted "results"); Sample.bytes ":[]}"]
                  eq_refl)).
Defined.

Lemma C1_witness :
  pushed (Sample.flush Sample.text_number_results) = []
  /\ Sample.flush Sample.text_number_results = mkOutcome [] None.
Proof.
  destruct (@C1_results_not_a_sequence Sample.node Sample.text_number_results
              Sample.doc_number_results eq_refl eq_refl) as [H1 [_ [_ H2]]].
  split; [exact H1 | exact (H2 (JNum 5) eq_refl eq_refl)].
Defined.

(** C1 as stated fails: the document [{}] has no [results]; its flush does
    not complete silently but hands a [TypeError] to the callback. *)
Lemma C1_counterexample :
  Sample.parse Sample.text_no_results = Some (JObj [])
  /\ get_results (JObj []) = Normal None
  /\ Sample.flush Sample.text_no_results = mkOutcome [] (Some TypeError).
Proof. repeat split. Qed.

Lemma C5_witness :
  Sample.json2csv
    [Sample.bytes ("{" +++ Sample.quoted "results" +++ ":[{" +++ Sample.quoted "a");
     Sample.bytes (":1},{" +++ Sample.quoted "b" +++ ":2}]}")]
  = Sample.json2csv [Sample.bytes Sample.text_two_records]
  /\ exists rows,
       pushed (Sample.json2csv [Sample.bytes Sample.text_two_records])
       = header_chunk ["a"; "b"] :: rows
       /\ Forall2
            (fun r chunk =>
               @row_chunk Sample.node ["a"; "b"] (flatten r) = Normal chunk)
            [JObj [("a", JNum 1)]; JObj [("b", JNum 2)]] rows.
Proof.
  destruct (@C5_chunk_boundaries Sample.node) as [H1 H2].
  split.
  - apply H1. reflexivity.
  - exact (H2 [Sample.bytes Sample.text_two_records] Sample.doc_two_records
              (JObj [("a", JNum 1)]) [JObj [("b", JNum 2)]] eq_refl eq_refl eq_refl).
Defined.

(** C5 as stated fails: for [{"results":[]}] the stage emits nothing, so no
    header row comes first; and for [{"results":[{"a":[{"toString":1}]}]}]
    the header row is followed by no row for the one element, the conversion
    of its cell to text having thrown. *)
Lemma C5_counterexample :
  Sample.parse Sample.text_empty_results = Some (JObj [("results", JArr [])])
  /\ Sample.json2csv [Sample.bytes Sample.text_empty_results] = mkOutcome [] None
  /\ Sample.parse Sample.text_unprintable
     = Some (JObj [("results", JArr [JObj [("a", JArr [JObj [("toString", JNum 1)]])]])])
  /\ Sample.json2csv [Sample.bytes Sample.text_unprintable]
     = mkOutcome [header_chunk ["a"]] (Some TypeError).
Proof. repeat split. Qed.

(** Where the chunks are cut matters to line 39: the two bytes of one
    character decode to that character when they arrive in one chunk, and to
    two replacement characters (shown as question marks) when the cut falls
    between them. *)
Lemma cut_inside_a_character :
  @transform Sample.node EmptyString [xc3; xa9] = String (ascii_of_N 233) EmptyString
  /\ fold_left (@transform Sample.node) [[xc3]; [xa9]] EmptyString = "??".
Proof. split; reflexivity. Qed.

Lemma first_seen_app (l1 l2 : list string) :
  first_seen (l1 ++ l2)
  = first_seen l1 ++ filter (fun k => negb (includes l1 k)) (first_seen l2).
Proof.
  induction l1 as [|x l1 IH]; simpl.
  - now rewrite filter_true.
  - rewrite IH, filter_app, filter_twice. f_equal. f_equal. apply filter_ext.
    intros a. unfold includes. simpl. rewrite negb_orb. apply andb_comm.
Qed.

(** C4: the scan of [results] yields as header set the distinct keys of all
    flat records in the order of their first occurrence (no key twice, every
    key present, the keys new in a later record after those of the earlier
    ones), together with all flat records; the header row and every row are
    pushed only after that scan, each row built against the complete header
    set; a row has as many cells as there are headers; and for
    [[{a:1}, {b:2}]] the headers are [["a","b"]], the first row is ["1,"]
    and the second [",2"]. *)
Theorem C4_header_set :
  (forall elems,
     scan_results (Some (JArr elems))
     = Normal (first_seen (all_keys elems), map flatten elems))
  /\ (forall l, NoDup (first_seen l))
  /\ (forall l k, In k (first_seen l) <-> In k l)
  /\ (forall l1 l2,
        first_seen (l1 ++ l2)
        = first_seen l1 ++ filter (fun k => negb (includes l1 k)) (first_seen l2))
  /\ (forall (platform : Platform) result elems,
        flush_results (Some (JArr (result :: elems)))
        = push_rows (first_seen (all_keys (result :: elems)))
            (map flatten (result :: elems))
            [header_chunk (first_seen (all_keys (result :: elems)))])
  /\ (forall (platform : Platform) headers row,
        List.length (rowValues headers row) = List.length headers)
  /\ scan_results (Some (JArr [JObj [("a", JNum 1)]; JObj [("b", JNum 2)]]))
     = Normal (["a"; "b"],
               [mkObject [("a", JNum 1)] ProtoObject; mkObject [("b", JNum 2)] ProtoObject])
  /\ Sample.flush Sample.text_two_records
     = mkOutcome ["a,b" +++ newline; "1," +++ newline; ",2" +++ newline] None.
Proof.
  split; [exact scan_results_array|].
  split; [exact first_seen_NoDup|].
  split; [exact first_seen_In|].
  split; [exact first_seen_app|].
  split; [intros; apply flush_results_array|].
  split; [intros; apply length_map|].
  split; reflexivity.
Qed.

(** C2 at the failing input: for [{"results":[{"a":0}]}] the row pushed is
    the bare newline, although the record has the key [a] and the text of
    its value is ["0"]. *)
Theorem C2_zero_cell_blank :
  Sample.parse Sample.text_zero_cell = Some (JObj [("results", JArr [JObj [("a", JNum 0)]])])
  /\ Sample.flush Sample.text_zero_cell = mkOutcome ["a" +++ newline; newline] None
  /\ assoc "a" (own (flatten (JObj [("a", JNum 0)]))) = Some (JNum 0)
  /\ ToString (JNum 0) = Normal "0".
Proof. repeat split. Qed.

(** The end-to-end scenario: the document of two named records, delivered in
    two chunks, comes out as the header [name.first] and the rows [Ann] and
    [Bo]. *)
Lemma end_to_end_names :
  Sample.json2csv
    [Sample.bytes ("{" +++ Sample.quoted "results" +++ ":[{" +++ Sample.quoted "name" +++ ":{"
                   +++ Sample.quoted "first" +++ ":" +++ Sample.quoted "Ann" +++ "}},{");
     Sample.bytes (Sample.quoted "name" +++ ":{" +++ Sample.quoted "first" +++ ":"
                   +++ Sample.quoted "Bo" +++ "}}]}")]
  = mkOutcome ["name.first" +++ newline; "Ann" +++ newline; "Bo" +++ newline] None.
Proof. reflexivity. Qed.

Lemma element_text_error (v : value) (e : js_error) :
  element_text v = Throw e -> e = TypeError.
Proof.
  destruct v as [|j|shown]; simpl; try discriminate.
  destruct j; try discriminate; apply ToString_error.
Qed.

Lemma row_chunk_error {platform : Platform} (headers : list string) (row : object)
    (e : js_error) :
  row_chunk headers row = Throw e -> e = TypeError.
Proof.
  unfold row_chunk, join_values.
  destruct (map_completion element_text (rowValues headers row)) as [texts|e'] eqn:Hm;
    simpl; [discriminate|].
  intros E. injection E as ->.
  destruct (map_completion_throw _ _ _ Hm) as [v [_ Hv]].
  exact (element_text_error _ _ Hv).
Qed.

Lemma push_rows_error {platform : Platform} (headers : list string) (rows : list object) :
  forall out out' e, push_rows headers rows out = (out', Throw e) -> e = TypeError.
Proof.
  induction rows as [|row tl IH]; intros out out' e; simpl.
  - unfold ret. discriminate.
  - unfold bind_stage, lift, push.
    destruct (row_chunk headers row) as [chunk|e'] eqn:Hrow.
    + apply IH.
    + intros E. injection E as _ ->. exact (row_chunk_error _ _ _ Hrow).
Qed.

(** The error a flush hands to its callback is the [SyntaxError] of
    [JSON.parse] exactly when the buffer does not parse; every other failure
    of the flush is a [TypeError]. *)
Lemma flush_error_category {platform : Platform} (jsonBuffer : string) (e : js_error) :
  callback (flush jsonBuffer) = Some e ->
  (e = SyntaxError /\ JSON_parse jsonBuffer = None)
  \/ (e = TypeError /\ exists parsed, JSON_parse jsonBuffer = Some parsed).
Proof.
  destruct (JSON_parse jsonBuffer) as [parsed|] eqn:Hp.
  - intros H. right. split; [|now exists parsed].
    destruct (get_results parsed) as [results|e'] eqn:Hr.
    + rewrite (flush_parsed _ _ _ Hp Hr) in H. unfold flush_results in H.
      destruct (get_length results) as [len|e1] eqn:Hlen.
      * destruct (greater_than_zero len) as [[|]|e2] eqn:Hgt.
        -- destruct (scan_results results) as [scanned|e3] eqn:Hs.
           ++ destruct (push_rows _ _ _) as [out [u|e4]] eqn:Hrows; simpl in H;
                [discriminate|].
              injection H as <-. exact (push_rows_error _ _ _ _ _ Hrows).
           ++ simpl in H. injection H as <-.
              destruct results as [[| | | | |]|]; simpl in Hs; congruence.
        -- discriminate.
        -- simpl in H. injection H as <-. exact (greater_than_zero_error _ _ Hgt).
      * simpl in H. injection H as <-.
        destruct results as [[| | | | |]|]; simpl in Hlen; congruence.
    + rewrite (flush_results_unreadable _ _ _ Hp Hr) in H. simpl in H. injection H as <-.
      destruct parsed; simpl in Hr; congruence.
  - intros H. left. rewrite (flush_syntax_error _ Hp) in H. simpl in H.
    injection H as <-. now split.
Qed.

Lemma flush_error_category_witness :
  (SyntaxError = SyntaxError /\ Sample.parse Sample.text_truncated = None)
  \/ (SyntaxError = TypeError /\ exists parsed, Sample.parse Sample.text_truncated = Some parsed).
Proof.
  exact (@flush_error_category Sample.node Sample.text_truncated SyntaxError eq_refl).
Defined.

(** ** Invariants of the flat record *)

Lemma own_set_prototype (o : object) (v : json) : own (set_prototype o v) = own o.
Proof. destruct v; reflexivity. Qed.

Lemma map_fst_update {A : Type} (k : string) (v : A) (ps : list (string * A)) :
  map fst (update k v ps) = map fst ps.
Proof.
  induction ps as [|[k1 v1] ps IH]; simpl; [reflexivity|].
  destruct (String.eqb k k1); simpl; [reflexivity | now rewrite IH].
Qed.

Lemma In_insert_index {A : Type} (x k : string) (i : N) (v : A) (ps : list (string * A)) :
  In x (map fst (insert_index i k v ps)) <-> x = k \/ In x (map fst ps).
Proof.
  induction ps as [|[k1 v1] ps IH]; simpl.
  - intuition.
  - destruct (array_index k1) as [j|]; [destruct (j <? i)%N|]; simpl;
      try rewrite IH; intuition.
Qed.

Lemma In_define_new {A : Type} (x k : string) (v : A) (ps : list (string * A)) :
  In x (map fst (define_new k v ps)) <-> x = k \/ In x (map fst ps).
Proof.
  unfold define_new. destruct (array_index k) as [i|].
  - apply In_insert_index.
  - rewrite map_app, in_app_iff. simpl. intuition.
Qed.

Lemma NoDup_insert_index {A : Type} (k : string) (i : N) (v : A) (ps : list (string * A)) :
  ~ In k (map fst ps) -> NoDup (map fst ps) -> NoDup (map fst (insert_index i k v ps)).
Proof.
  induction ps as [|[k1 v1] ps IH]; simpl; intros Hk Hnd.
  - constructor; [intros [] | constructor].
  - assert (Hins : NoDup (k :: k1 :: map fst ps)) by (constructor; assumption).
    destruct (array_index k1) as [j|]; [destruct (j <? i)%N|]; simpl; try exact Hins.
    inversion Hnd as [|? ? Hk1 Hnd']; subst. constructor.
    + rewrite In_insert_index. intros [E|Hin]; [apply Hk; now left | now apply Hk1].
    + apply IH; [intros Hin; apply Hk; now right | exact Hnd'].
Qed.

Lemma NoDup_define_new {A : Type} (k : string) (v : A) (ps : list (string * A)) :
  ~ In k (map fst ps) -> NoDup (map fst ps) -> NoDup (map fst (define_new k v ps)).
Proof.
  intros Hk Hnd. unfold define_new. destruct (array_index k) as [i|].
  - now apply NoDup_insert_index.
  - rewrite map_app. simpl. apply NoDup_app; [exact Hnd | repeat constructor; intros [] | ].
    intros x Hx [<-|[]]. now apply Hk.
Qed.

Lemma has_key_false_not_In {A : Type} (k : string) (ps : list (string * A)) :
  has_key k ps = false -> ~ In k (map fst ps).
Proof.
  unfold has_key. intros H. rewrite assoc_In_iff.
  destruct (assoc k ps); [discriminate | intros E; now apply E].
Qed.

Lemma In_keys_obj_assign (o : object) (x k : string) (v : json) :
  In x (Object_keys (obj_assign o k v)) -> x = k \/ In x (Object_keys o).
Proof.
  unfold obj_assign, Object_keys.
  destruct (has_key k (own o)); simpl.
  - rewrite map_fst_update. now right.
  - destruct (String.eqb k proto_key).
    + destruct (prototype o) as [| | elems | props]; simpl;
        try (rewrite own_set_prototype; now right);
        try (rewrite In_define_new; tauto).
      destruct (has_key proto_key props); simpl;
        [rewrite In_define_new; tauto | rewrite own_set_prototype; now right].
    + simpl. rewrite In_define_new. tauto.
Qed.

Lemma NoDup_keys_obj_assign (o : object) (k : string) (v : json) :
  NoDup (Object_keys o) -> NoDup (Object_keys (obj_assign o k v)).
Proof.
  unfold obj_assign, Object_keys. intros Hnd.
  destruct (has_key k (own o)) eqn:Hhas; simpl.
  - now rewrite map_fst_update.
  - apply has_key_false_not_In in Hhas.
    destruct (String.eqb k proto_key).
    + destruct (prototype o) as [| | elems | props]; simpl;
        try (now rewrite own_set_prototype);
        try (now apply NoDup_define_new).
      destruct (has_key proto_key props); simpl;
        [now apply NoDup_define_new | now rewrite own_set_prototype].
    + simpl. now apply NoDup_define_new.
Qed.

(** A property of the accumulator that every assignment of a leaf keeps is
    kept by [flattenObject], whatever it is called on. *)
Lemma flattenObject_invariant (P : object -> Prop) (Q : json -> Prop) :
  (forall o k v, is_plain_object v = false -> Q v -> P o -> P (obj_assign o k v)) ->
  (forall props k v, Q (JObj props) -> In (k, v) props -> Q v) ->
  (forall elems e, Q (JArr elems) -> In e elems -> Q e) ->
  (forall c, Q (JStr (String c EmptyString))) ->
  forall obj parent res, Q obj -> P res -> P (flattenObject obj parent res).
Proof.
  intros Hassign Hprops Helems Hchar.
  induction obj as [| | | s | elems IH | props IH] using json_nested_ind;
    intros parent res HQ HP; try exact HP.
  - simpl. generalize 0 as i. revert res HP. clear HQ.
    induction s as [|c tl IHs]; intros res HP i; [exact HP|].
    apply IHs. apply Hassign; [reflexivity | apply Hchar | exact HP].
  - simpl. generalize 0 as i. revert res HP.
    assert (HQe : forall e, In e elems -> Q e) by (intros e; apply Helems; exact HQ).
    clear HQ. induction elems as [|e tl IHl]; intros res HP i; [exact HP|].
    apply IHl.
    + intros e' Hin. apply IH. now right.
    + intros e' Hin. apply HQe. now right.
    + assert (Qe : Q e) by (apply HQe; now left).
      destruct e; try (apply Hassign; [reflexivity | exact Qe | exact HP]).
      apply (IH (JObj props)); [now left | exact Qe | exact HP].
  - revert res HP.
    assert (HQv : forall k v, In (k, v) props -> Q v) by (intros k v; apply Hprops; exact HQ).
    clear HQ. induction props as [|[key v] tl IHl]; intros res HP; [exact HP|].
    rewrite flattenObject_cons. apply IHl.
    + intros k' v' Hin. apply (IH k' v'). now right.
    + intros k' v' Hin. apply (HQv k' v'). now right.
    + assert (Qv : Q v) by (apply (HQv key); now left).
      destruct v; try (apply Hassign; [reflexivity | exact Qv | exact HP]).
      apply (IH key (JObj props)); [now left | exact Qv | exact HP].
Qed.

Lemma flatten_keys_NoDup (result : json) : NoDup (Object_keys (flatten result)).
Proof.
  unfold flatten.
  apply (flattenObject_invariant (fun o => NoDup (Object_keys o)) (fun _ => True)); auto.
  - intros o k v _ _. apply NoDup_keys_obj_assign.
  - constructor.
Qed.

Lemma Forall_update {A : Type} (R : string * A -> Prop) (k : string) (v : A)
    (ps : list (string * A)) :
  (forall k', R (k', v)) -> Forall R ps -> Forall R (update k v ps).
Proof.
  intros Hv. induction ps as [|[k1 v1] ps IH]; simpl; intros H; [constructor|].
  inversion H; subst. destruct (String.eqb k k1); constructor; auto.
Qed.

Lemma Forall_insert_index {A : Type} (R : string * A -> Prop) (i : N) (k : string) (v : A)
    (ps : list (string * A)) :
  R (k, v) -> Forall R ps -> Forall R (insert_index i k v ps).
Proof.
  intros Hv. induction ps as [|[k1 v1] ps IH]; simpl; intros H.
  - now constructor.
  - inversion H; subst.
    destruct (array_index k1) as [j|]; [destruct (j <? i)%N|]; constructor; auto.
Qed.

Lemma Forall_define_new {A : Type} (R : string * A -> Prop) (k : string) (v : A)
    (ps : list (string * A)) :
  R (k, v) -> Forall R ps -> Forall R (define_new k v ps).
Proof.
  intros Hv H. unfold define_new. destruct (array_index k) as [i|].
  - now apply Forall_insert_index.
  - apply Forall_app. split; [exact H | now constructor].
Qed.

(** An assignment keeps a property of the own values that the assigned
    value has. *)
Lemma Forall_own_obj_assign (R : json -> Prop) (o : object) (k : string) (v : json) :
  R v ->
  Forall (fun kv => R (snd kv)) (own o) ->
  Forall (fun kv => R (snd kv)) (own (obj_assign o k v)).
Proof.
  intros Hv H. unfold obj_assign.
  destruct (has_key k (own o)); simpl.
  - now apply Forall_update.
  - destruct (String.eqb k proto_key).
    + destruct (prototype o) as [| | elems | props]; simpl;
        try (now rewrite own_set_prototype);
        try (now apply Forall_define_new).
      destruct (has_key proto_key props); simpl;
        [now apply Forall_define_new | now rewrite own_set_prototype].
    + simpl. now apply Forall_define_new.
Qed.

(** The keys of a flat record are pairwise distinct, whatever value
    [flattenObject] is called on. *)
Theorem flat_record_keys_distinct (result : json) : NoDup (Object_keys (flatten result)).
Proof. apply flatten_keys_NoDup. Qed.

(** A flat record never holds a plain object: every value it owns is a
    scalar, [null] or an array. *)
Theorem flat_record_values_are_leaves (result : json) :
  Forall (fun kv => is_plain_object (snd kv) = false) (own (flatten result)).
Proof.
  unfold flatten.
  apply (flattenObject_invariant
           (fun o => Forall (fun kv => is_plain_object (snd kv) = false) (own o))
           (fun _ => True));
    [ intros o k v Hv _ H;
      exact (Forall_own_obj_assign (fun v => is_plain_object v = false) o k v Hv H)
    | trivial | trivial | trivial | trivial | constructor ].
Qed.

(** An assignment to one key leaves the own value of every other key as it
    was. *)
Lemma assoc_obj_assign_other (o : object) (k k0 : string) (v : json) :
  k <> k0 -> assoc k (own (obj_assign o k0 v)) = assoc k (own o).
Proof.
  intros Hne. unfold obj_assign.
  assert (E : String.eqb k k0 = false) by now apply String.eqb_neq.
  destruct (has_key k0 (own o)) eqn:Hhas; simpl.
  - rewrite assoc_update by exact Hhas. now rewrite E.
  - assert (HN : assoc k0 (own o) = None).
    { unfold has_key in Hhas. now destruct (assoc k0 (own o)). }
    assert (Hnew : assoc k (define_new k0 v (own o)) = assoc k (own o)).
    { rewrite assoc_define_new by exact HN. now rewrite E. }
    destruct (String.eqb k0 proto_key); [|exact Hnew].
    destruct (prototype o) as [| | elems | props]; simpl;
      try (now rewrite own_set_prototype); try exact Hnew.
    destruct (has_key proto_key props); simpl;
      [exact Hnew | now rewrite own_set_prototype].
Qed.

Lemma assign_all_frame (l : list (string * json)) :
  forall res k, ~ In k (map fst l) -> assoc k (own (assign_all res l)) = assoc k (own res).
Proof.
  induction l as [|[p v] l IH]; intros res k Hk; [reflexivity|].
  unfold assign_all. simpl. fold (assign_all (obj_assign res p v) l).
  rewrite IH by (intros Hin; apply Hk; now right).
  apply assoc_obj_assign_other. intros E. apply Hk. now left.
Qed.

Lemma assign_all_app (res : object) (l1 l2 : list (string * json)) :
  assign_all res (l1 ++ l2) = assign_all (assign_all res l1) l2.
Proof. unfold assign_all. apply fold_left_app. Qed.

Lemma flattenObject_assign_all (props : list (string * json)) (parent : string) (res : object) :
  flattenObject (JObj props) parent res = assign_all res (leaves (JObj props) parent).
Proof.
  destruct (flattenObject_leaves (JObj props) parent res) as [E|E];
    [exact E | discriminate].
Qed.

(** Reading back what [flattenObject] stored: under a path other than
    [__proto__], the flat record holds the value of the last leaf of the
    record that has this path. *)
Theorem flat_record_last_leaf_wins :
  forall props parent res earlier path v later,
    leaves (JObj props) parent = earlier ++ (path, v) :: later ->
    ~ In path (map fst later) ->
    path <> proto_key ->
    assoc path (own (flattenObject (JObj props) parent res)) = Some v.
Proof.
  intros props parent res earlier path v later Hl Hlater Hpath.
  rewrite flattenObject_assign_all, Hl, assign_all_app.
  unfold assign_all at 1. simpl. fold (assign_all (obj_assign (assign_all res earlier) path v) later).
  rewrite assign_all_frame by exact Hlater.
  rewrite assoc_obj_assign by exact Hpath. now rewrite String.eqb_refl.
Qed.

Lemma flat_record_last_leaf_wins_witness :
  assoc "a.b"
    (own (flattenObject (JObj [("a.b", JArr [JNum 1]); ("a", JObj [("b", JNum 2)])])
            EmptyString empty_object))
  = Some (JNum 2).
Proof.
  apply (flat_record_last_leaf_wins
           [("a.b", JArr [JNum 1]); ("a", JObj [("b", JNum 2)])] EmptyString empty_object
           [("a.b", JArr [JNum 1])] "a.b" (JNum 2) []).
  - reflexivity.
  - simpl. tauto.
  - discriminate.
Defined.

(** What [flattenObject] does not touch: an own property of the accumulator
    whose key is the path of no leaf of the record keeps its value, and a key
    the accumulator lacks stays absent. *)
Theorem flattenObject_frame :
  forall props parent res k,
    ~ In k (map fst (leaves (JObj props) parent)) ->
    assoc k (own (flattenObject (JObj props) parent res)) = assoc k (own res).
Proof.
  intros props parent res k Hk. rewrite flattenObject_assign_all.
  now apply assign_all_frame.
Qed.

Lemma flattenObject_frame_witness :
  assoc "id"
    (own (flattenObject (JObj [("name", JObj [("first", JStr "Ann")])]) EmptyString
            (mkObject [("id", JNum 7)] ProtoObject)))
  = assoc "id" (own (mkObject [("id", JNum 7)] ProtoObject)).
Proof.
  apply (flattenObject_frame [("name", JObj [("first", JStr "Ann")])] EmptyString
           (mkObject [("id", JNum 7)] ProtoObject) "id").
  simpl. intros [H|[]]. discriminate.
Defined.

Lemma assign_all_prototype (l : list (string * json)) :
  forall res, ~ In proto_key (map fst l) -> prototype (assign_all res l) = prototype res.
Proof.
  induction l as [|[p v] l IH]; intros res Hk; [reflexivity|].
  unfold assign_all. simpl. fold (assign_all (obj_assign res p v) l).
  rewrite IH by (intros Hin; apply Hk; now right).
  apply prototype_obj_assign. intros E. apply Hk. now left.
Qed.

(** The prototype of the accumulator changes only through a leaf whose path
    is exactly [__proto__]: a record with no such leaf leaves it alone. *)
Theorem flattenObject_prototype_kept :
  forall props parent res,
    ~ In proto_key (map fst (leaves (JObj props) parent)) ->
    prototype (flattenObject (JObj props) parent res) = prototype res.
Proof.
  intros props parent res Hk. rewrite flattenObject_assign_all.
  now apply assign_all_prototype.
Qed.

Lemma flattenObject_prototype_kept_witness :
  prototype (flattenObject (JObj [("a", JObj [("__proto__", JNull)])]) EmptyString empty_object)
  = prototype empty_object.
Proof.
  apply (flattenObject_prototype_kept [("a", JObj [("__proto__", JNull)])] EmptyString
           empty_object).
  simpl. intros [H|[]]. discriminate.
Defined.

Lemma prefix_append (s t : string) : String.prefix s (s +++ t) = true.
Proof.
  induction s as [|c s IH]; simpl; [now destruct t|].
  destruct (ascii_dec c c) as [_|Hne]; [exact IH | now elim Hne].
Qed.

Lemma leaves_under_parent (v : json) (c : ascii) :
  forall parent,
    Forall (fun pv => exists rest, fst pv = String c parent +++ "." +++ rest)
      (leaves v (String c parent)).
Proof.
  induction v as [| | | | elems _ | props IH] using json_nested_ind; intros parent;
    try constructor.
  induction props as [|[key v] tl IHtl]; [constructor|].
  rewrite leaves_cons. apply Forall_app. split.
  - destruct (is_plain_object v) eqn:Hv.
    + rewrite propName_nested.
      change (String c parent +++ "." +++ key) with (String c (parent +++ "." +++ key)).
      eapply Forall_impl; [|apply (IH key v (or_introl eq_refl))].
      intros [p w] [rest Hrest]. simpl in *. exists (key +++ "." +++ rest).
      rewrite Hrest. simpl. f_equal. now rewrite !append_assoc.
    + constructor; [|constructor]. exists key. reflexivity.
  - apply IHtl. intros k' v' Hin. apply (IH k' v'). now right.
Qed.

Lemma In_keys_assign_all (l : list (string * json)) :
  forall res k,
    In k (Object_keys (assign_all res l)) -> In k (Object_keys res) \/ In k (map fst l).
Proof.
  induction l as [|[p v] l IH]; intros res k; [now left|].
  unfold assign_all. simpl. fold (assign_all (obj_assign res p v) l).
  intros H. destruct (IH _ _ H) as [H1|H1]; [|now right; right].
  destruct (In_keys_obj_assign _ _ _ _ H1) as [->|H2]; [right; now left | now left].
Qed.

(** Below the top level [flattenObject] writes only inside its own name
    space: called with a non-empty path, every key it adds to the accumulator
    begins with that path followed by a dot. *)
Theorem flattenObject_keys_under_parent :
  forall props c parent res k,
    In k (Object_keys (flattenObject (JObj props) (String c parent) res)) ->
    In k (Object_keys res) \/ String.prefix (String c parent +++ ".") k = true.
Proof.
  intros props c parent res k H. rewrite flattenObject_assign_all in H.
  destruct (In_keys_assign_all _ _ _ H) as [H1|H1]; [now left | right].
  apply in_map_iff in H1. destruct H1 as [[p w] [<- Hin]].
  pose proof (leaves_under_parent (JObj props) c parent) as HF.
  rewrite Forall_forall in HF. destruct (HF _ Hin) as [rest Hrest].
  simpl fst in Hrest. simpl fst. rewrite Hrest, <- append_assoc. apply prefix_append.
Qed.

Lemma flattenObject_keys_under_parent_witness :
  In "name.first" (Object_keys (mkObject [("id", JNum 7)] ProtoObject))
  \/ String.prefix ("name" +++ ".") "name.first" = true.
Proof.
  apply (flattenObject_keys_under_parent [("first", JStr "Ann")] "n" "ame"
           (mkObject [("id", JNum 7)] ProtoObject) "name.first").
  simpl. right. now left.
Defined.

(** ** Documents that always print *)

Lemma printable_props (props : list (string * json)) (k : string) (v : json) :
  printable (JObj props) = true -> In (k, v) props -> printable v = true.
Proof.
  simpl. intros H Hin. apply andb_prop in H. destruct H as [_ H].
  induction props as [|[k1 v1] tl IH]; [destruct Hin|].
  apply andb_prop in H. destruct H as [H1 H2].
  destruct Hin as [E|Hin]; [injection E as _ <-; exact H1 | now apply IH].
Qed.

Lemma printable_elems (elems : list json) (e : json) :
  printable (JArr elems) = true -> In e elems -> printable e = true.
Proof. simpl. intros H Hin. rewrite forallb_forall in H. now apply H. Qed.

Lemma map_completion_normal {A B : Type} (f : A -> completion B) (l : list A) :
  (forall a, In a l -> exists b, f a = Normal b) ->
  exists bs, map_completion f l = Normal bs /\ List.length bs = List.length l.
Proof.
  induction l as [|a tl IH]; intros H; simpl.
  - now exists [].
  - destruct (H a (or_introl eq_refl)) as [b Hb]. rewrite Hb. simpl.
    destruct (IH (fun a' Hin => H a' (or_intror Hin))) as [bs [Hbs Hlen]].
    rewrite Hbs. simpl. exists (b :: bs). split; [reflexivity | simpl; now rewrite Hlen].
Qed.

(** [ToString] does not throw on a printable value. *)
Lemma ToString_printable (v : json) :
  printable v = true -> exists s, ToString v = Normal s.
Proof.
  induction v as [| [|] | n | s | elems IH | props _] using json_nested_ind; intros Hp;
    try (eexists; reflexivity).
  - simpl.
    destruct (map_completion_normal
                (fun e => match e with JNull => Normal EmptyString | _ => ToString e end)
                elems) as [texts [Ht _]].
    { intros e Hin. pose proof (printable_elems _ _ Hp Hin) as He.
      destruct e; try (eexists; reflexivity); now apply IH. }
    rewrite Ht. simpl. eexists; reflexivity.
  - simpl in *. apply andb_prop in Hp. destruct Hp as [Hk _].
    destruct (has_key "toString" props); [discriminate | eexists; reflexivity].
Qed.

Lemma printable_set_prototype (o : object) (v : json) :
  printable v = true -> printable_object o -> printable_object (set_prototype o v).
Proof.
  intros Hv [Hown Hproto]. split; [now rewrite own_set_prototype|].
  destruct v; simpl; try exact Hproto; try exact I; exact Hv.
Qed.

Lemma printable_object_assign (o : object) (k : string) (v : json) :
  printable v = true -> printable_object o -> printable_object (obj_assign o k v).
Proof.
  intros Hv Ho. pose proof Ho as [Hown Hproto].
  assert (Hnew : printable_object (mkObject (define_new k v (own o)) (prototype o))).
  { split; [|exact Hproto]. simpl.
    now apply (Forall_define_new (fun kv => printable (snd kv) = true)). }
  unfold obj_assign. destruct (has_key k (own o)).
  - split; [|exact Hproto]. simpl.
    now apply (Forall_update (fun kv => printable (snd kv) = true)).
  - destruct (String.eqb k proto_key); [|exact Hnew].
    destruct (prototype o) as [| | elems | props];
      try exact Hnew; try (now apply printable_set_prototype).
    destruct (has_key proto_key props); [exact Hnew | now apply printable_set_prototype].
Qed.

Lemma printable_flatten (result : json) :
  printable result = true -> printable_object (flatten result).
Proof.
  intros Hp. unfold flatten.
  apply (flattenObject_invariant printable_object (fun v => printable v = true));
    [ intros o k v _; apply printable_object_assign
    | apply printable_props | apply printable_elems | reflexivity | exact Hp
    | split; [constructor | exact I] ].
Qed.

Section Output.

Context {platform : Platform}.

Lemma element_text_printable (j : json) :
  printable j = true -> exists s, element_text (VJson j) = Normal s.
Proof.
  intros Hp. destruct j; try (eexists; reflexivity); now apply ToString_printable.
Qed.

Lemma Object_prototype_get_text (receiver : value) (k : string) :
  (exists s, element_text receiver = Normal s) ->
  exists s, element_text (Object_prototype_get receiver k) = Normal s.
Proof.
  intros Hr. unfold Object_prototype_get.
  destruct (String.eqb k "constructor"); [eexists; reflexivity|].
  destruct (String.eqb k proto_key); [exact Hr|].
  destruct (includes Object_prototype_functions k); eexists; reflexivity.
Qed.

(** Every value read from a printable flat record converts to text. *)
Lemma obj_get_text (o : object) (k : string) :
  printable_object o -> exists s, element_text (obj_get o k) = Normal s.
Proof.
  intros [Hown Hproto]. unfold obj_get.
  destruct (assoc k (own o)) as [v|] eqn:Hk.
  - apply element_text_printable.
    rewrite Forall_forall in Hown.
    assert (Hin : In (k, v) (own o)).
    { clear Hown Hproto. induction (own o) as [|[k1 v1] tl IH]; simpl in Hk; [discriminate|].
      destruct (String.eqb_spec k k1) as [->|_];
        [injection Hk as ->; now left | right; now apply IH]. }
    exact (Hown _ Hin).
  - destruct (prototype o) as [| | elems | props].
    + apply Object_prototype_get_text. eexists; reflexivity.
    + eexists; reflexivity.
    + unfold Array_get. destruct (String.eqb k "length"); [eexists; reflexivity|].
      destruct (match array_index k with
                | Some i => nth_error elems (N.to_nat i)
                | None => None
                end) as [e|] eqn:He.
      * apply element_text_printable. rewrite forallb_forall in Hproto. apply Hproto.
        destruct (array_index k); [|discriminate]. exact (nth_error_In _ _ He).
      * destruct (String.eqb k "constructor"); [eexists; reflexivity|].
        destruct (includes Array_prototype_functions k); [eexists; reflexivity|].
        apply Object_prototype_get_text. now apply (element_text_printable (JArr elems)).
    + destruct (assoc k props) as [v|] eqn:Hv.
      * apply element_text_printable. apply (printable_props props k v Hproto).
        clear Hproto. induction props as [|[k1 v1] tl IH]; simpl in Hv; [discriminate|].
        destruct (String.eqb_spec k k1) as [->|_];
          [injection Hv as ->; now left | right; now apply IH].
      * apply Object_prototype_get_text. now apply (element_text_printable (JObj props)).
Qed.

Lemma row_chunk_printable (headers : list string) (row : object) :
  printable_object row -> exists chunk, row_chunk headers row = Normal chunk.
Proof.
  intros Hrow. unfold row_chunk, join_values.
  destruct (map_completion_normal element_text (rowValues headers row)) as [texts [Ht _]].
  { intros v Hin. unfold rowValues in Hin. apply in_map_iff in Hin.
    destruct Hin as [header [<- _]]. unfold cell.
    destruct (ToBoolean (obj_get row header));
      [now apply obj_get_text | eexists; reflexivity]. }
  rewrite Ht. simpl. eexists; reflexivity.
Qed.

(** What [push_rows] leaves behind, whether it ends or throws: one chunk for
    each of the first rows, in order, and nothing else. *)
Lemma push_rows_trace (headers : list string) (rows : list object) :
  forall out out' c,
    push_rows headers rows out = (out', c) ->
    exists chunks,
      out' = out ++ chunks
      /\ Forall2 (fun row chunk => row_chunk headers row = Normal chunk)
           (firstn (List.length chunks) rows) chunks
      /\ List.length chunks <= List.length rows
      /\ (c = Normal tt -> List.length chunks = List.length rows)
      /\ (Forall (fun row => exists chunk, row_chunk headers row = Normal chunk) rows ->
          c = Normal tt).
Proof.
  induction rows as [|row tl IH]; intros out out' c; simpl.
  - unfold ret. intros E. injection E as <- <-. exists []. rewrite app_nil_r.
    split; [reflexivity | split; [constructor | split; [simpl; lia | split]]].
    + reflexivity.
    + reflexivity.
  - unfold bind_stage, lift, push.
    destruct (row_chunk headers row) as [chunk|e] eqn:Hrow.
    + intros E. destruct (IH _ _ _ E) as [chunks [-> [HF [Hle [Hn Hall]]]]].
      exists (chunk :: chunks). rewrite <- app_assoc. simpl.
      split; [reflexivity | split; [now constructor | split; [lia | split]]].
      * intros Hc. now rewrite (Hn Hc).
      * intros H. inversion H; subst. now apply Hall.
    + intros E. injection E as <- <-. exists []. rewrite app_nil_r. simpl.
      split; [reflexivity | split; [constructor | split; [lia | split]]].
      * discriminate.
      * intros H. inversion H as [|? ? [chunk Hc] _]; subst. congruence.
Qed.

Lemma flush_pushed_cases :
  forall jsonBuffer,
    pushed (flush jsonBuffer) = []
    \/ exists parsed result elems rows,
         JSON_parse jsonBuffer = Some parsed
         /\ get_results parsed = Normal (Some (JArr (result :: elems)))
         /\ pushed (flush jsonBuffer)
            = header_chunk (first_seen (all_keys (result :: elems))) :: rows
         /\ Forall2
              (fun r chunk =>
                 row_chunk (first_seen (all_keys (result :: elems))) (flatten r)
                 = Normal chunk)
              (firstn (List.length rows) (result :: elems)) rows
         /\ List.length rows <= List.length (result :: elems).
Proof.
  intros jsonBuffer.
  destruct (JSON_parse jsonBuffer) as [parsed|] eqn:Hp;
    [|left; now rewrite (flush_syntax_error _ Hp)].
  destruct (get_results parsed) as [results|e] eqn:Hr;
    [|left; now rewrite (flush_results_unreadable _ _ _ Hp Hr)].
  rewrite (flush_parsed _ _ _ Hp Hr).
  destruct (is_array results) eqn:Harr.
  - destruct results as [[| | | | [|result elems] |]|]; try discriminate.
    + left. reflexivity.
    + right. exists parsed, result, elems. rewrite flush_results_array.
      destruct (push_rows _ _ _) as [out c] eqn:E.
      destruct (push_rows_trace _ _ _ _ _ E) as [rows [-> [HF [Hle _]]]].
      exists rows. rewrite length_map in Hle.
      split; [reflexivity | split; [exact Hr | split; [|split]]].
      * now destruct c.
      * rewrite firstn_map in HF.
        exact (Forall2_map_left flatten _ _ _ HF).
      * exact Hle.
  - left. destruct (flush_results_not_array results Harr) as [Hout _].
    destruct (flush_results results) as [out [u|e]]; simpl in *; now subst.
Qed.

(** The shape of the output of any flush: either nothing at all, or the
    header row of a non-empty [results] array followed by the rows of its
    first records, in order, never more rows than records. *)
Theorem flush_output_shape :
  forall jsonBuffer,
    pushed (flush jsonBuffer) = []
    \/ exists parsed result elems rows,
         JSON_parse jsonBuffer = Some parsed
         /\ get_results parsed = Normal (Some (JArr (result :: elems)))
         /\ pushed (flush jsonBuffer)
            = header_chunk (first_seen (all_keys (result :: elems))) :: rows
         /\ Forall2
              (fun r chunk =>
                 row_chunk (first_seen (all_keys (result :: elems))) (flatten r)
                 = Normal chunk)
              (firstn (List.length rows) (result :: elems)) rows
         /\ List.length rows <= List.length (result :: elems).
Proof. exact flush_pushed_cases. Qed.

(** Every chunk a flush pushes ends with a line feed. *)
Theorem flush_chunks_end_with_newline :
  forall jsonBuffer,
    Forall (fun chunk => exists line, chunk = line +++ newline) (pushed (flush jsonBuffer)).
Proof.
  intros jsonBuffer.
  destruct (flush_pushed_cases jsonBuffer)
    as [->|[parsed [result [elems [rows [_ [_ [-> [HF _]]]]]]]]]; [constructor|].
  constructor.
  - eexists; reflexivity.
  - clear -HF. induction HF as [|r chunk l l' Hrow _ IH]; constructor; [|exact IH].
    unfold row_chunk in Hrow.
    destruct (join_values _) as [s|e]; simpl in Hrow; [|discriminate].
    injection Hrow as <-. now exists s.
Qed.

(** A document whose [results] is a non-empty array of printable values is
    always converted in full: the flush ends without an error, having pushed
    the header row and one row per record. *)
Theorem printable_document_converts :
  forall jsonBuffer parsed result elems,
    JSON_parse jsonBuffer = Some parsed ->
    get_results parsed = Normal (Some (JArr (result :: elems))) ->
    forallb printable (result :: elems) = true ->
    callback (flush jsonBuffer) = None
    /\ List.length (pushed (flush jsonBuffer)) = S (List.length (result :: elems)).
Proof.
  intros jsonBuffer parsed result elems Hp Hr Hprint.
  rewrite (flush_parsed _ _ _ Hp Hr), flush_results_array.
  destruct (push_rows _ _ _) as [out c] eqn:E.
  destruct (push_rows_trace _ _ _ _ _ E) as [rows [-> [_ [_ [Hn Hall]]]]].
  assert (Hc : c = Normal tt).
  { apply Hall. rewrite Forall_forall. intros row Hin.
    apply in_map_iff in Hin. destruct Hin as [r [<- Hin]].
    apply row_chunk_printable, printable_flatten.
    rewrite forallb_forall in Hprint. now apply Hprint. }
  subst c. simpl. split; [reflexivity|].
  rewrite (Hn eq_refl), length_map. reflexivity.
Qed.

End Output.

Lemma printable_document_converts_witness :
  callback (Sample.flush Sample.text_two_records) = None
  /\ List.length (pushed (Sample.flush Sample.text_two_records)) = 3.
Proof.
  exact (@printable_document_converts Sample.node Sample.text_two_records
           Sample.doc_two_records (JObj [("a", JNum 1)]) [JObj [("b", JNum 2)]]
           eq_refl eq_refl eq_refl).
Defined.

(** ** Cells, rows and headers *)

Lemma cell_absent_cases {platform : Platform} (row : object) (header : string) :
  assoc header (own row) = None ->
  prototype row = ProtoObject ->
  (is_Object_prototype_member header = false -> cell row header = VJson (JStr EmptyString))
  /\ (is_Object_prototype_member header = true ->
      cell row header = obj_get row header /\ ToBoolean (cell row header) = true).
Proof.
  intros Hown Hproto. unfold cell, obj_get, is_Object_prototype_member, Object_prototype_get.
  rewrite Hown, Hproto.
  destruct (String.eqb header "constructor"); cbn [orb].
  - split; [discriminate | intros _; split; reflexivity].
  - destruct (String.eqb header proto_key); cbn [orb].
    + split; [discriminate | intros _; split; reflexivity].
    + destruct (includes Object_prototype_functions header).
      * split; [discriminate | intros _; split; reflexivity].
      * split; [reflexivity | discriminate].
Qed.

(** Line 65 on a key the row lacks, the row still having [Object.prototype]
    above it: the cell is empty, unless the header is the name of a member of
    [Object.prototype], in which case the inherited member is read and the
    cell is not blanked. *)
Theorem cell_absent_key {platform : Platform} (row : object) (header : string) :
  assoc header (own row) = None ->
  prototype row = ProtoObject ->
  (is_Object_prototype_member header = false -> cell row header = VJson (JStr EmptyString))
  /\ (is_Object_prototype_member header = true ->
      cell row header = obj_get row header /\ ToBoolean (cell row header) = true).
Proof. apply cell_absent_cases. Qed.

Lemma cell_absent_key_witness :
  (is_Object_prototype_member "b" = false ->
   @cell Sample.node (mkObject [("a", JNum 1)] ProtoObject) "b" = VJson (JStr EmptyString))
  /\ (is_Object_prototype_member "b" = true ->
      @cell Sample.node (mkObject [("a", JNum 1)] ProtoObject) "b"
      = @obj_get Sample.node (mkObject [("a", JNum 1)] ProtoObject) "b"
      /\ ToBoolean (@cell Sample.node (mkObject [("a", JNum 1)] ProtoObject) "b") = true).
Proof.
  exact (@cell_absent_key Sample.node (mkObject [("a", JNum 1)] ProtoObject) "b"
           eq_refl eq_refl).
Defined.

Lemma first_seen_NoDup_id (l : list string) : NoDup l -> first_seen l = l.
Proof.
  induction l as [|x tl IH]; intros H; [reflexivity|].
  inversion H as [|? ? Hx Htl]; subst. simpl. rewrite (IH Htl). f_equal.
  rewrite <- (filter_true tl) at 2. apply filter_ext_in.
  intros a Ha. destruct (String.eqb_spec a x) as [->|_]; [now elim Hx | reflexivity].
Qed.

Lemma assoc_In_NoDup {A : Type} (ps : list (string * A)) (k : string) (v : A) :
  NoDup (map fst ps) -> In (k, v) ps -> assoc k ps = Some v.
Proof.
  induction ps as [|[k1 v1] tl IH]; simpl; intros Hnd Hin; [destruct Hin|].
  inversion Hnd as [|? ? Hk1 Hnd']; subst.
  destruct Hin as [E|Hin].
  - inversion E; subst. now rewrite String.eqb_refl.
  - destruct (String.eqb_spec k k1) as [->|_]; [|now apply IH].
    elim Hk1. apply in_map_iff. now exists (k1, v).
Qed.

(** A document with a single record: the headers are the keys of its flat
    record in their order, and the cells of its row are the values of the
    flat record in the same order, each falsy value replaced by the empty
    string. *)
Theorem single_record_row {platform : Platform} (result : json) :
  scan_results (Some (JArr [result])) = Normal (Object_keys (flatten result), [flatten result])
  /\ rowValues (Object_keys (flatten result)) (flatten result)
     = map (fun kv => blank_falsy (snd kv)) (own (flatten result)).
Proof.
  split.
  - rewrite scan_results_array. unfold all_keys. simpl. rewrite app_nil_r.
    now rewrite (first_seen_NoDup_id _ (flatten_keys_NoDup result)).
  - unfold rowValues, Object_keys. rewrite map_map. apply map_ext_in.
    intros [k v] Hin. simpl. unfold cell, obj_get, blank_falsy.
    now rewrite (assoc_In_NoDup _ _ _ (flatten_keys_NoDup result) Hin).
Qed.

Lemma all_keys_app (elems more : list json) :
  all_keys (elems ++ more) = all_keys elems ++ all_keys more.
Proof. unfold all_keys. now rewrite map_app, concat_app. Qed.

(** More records only add columns: the headers found for [elems] followed by
    [more] are the headers found for [elems] alone, in the same order,
    followed by the keys that [more] brings and [elems] did not have. *)
Theorem headers_only_grow (elems more : list json) :
  scan_results (Some (JArr (elems ++ more)))
  = Normal (first_seen (all_keys elems)
            ++ filter (fun k => negb (includes (all_keys elems) k)) (first_seen (all_keys more)),
            map flatten elems ++ map flatten more)
  /\ scan_results (Some (JArr elems)) = Normal (first_seen (all_keys elems), map flatten elems).
Proof.
  split; [|apply scan_results_array].
  now rewrite scan_results_array, all_keys_app, first_seen_app, map_app.
Qed.

(** A [results] that is no array but has a positive [length] (a non-empty
    string, an object with such a property) passes the guard of line 47 and
    fails at [results.forEach]: nothing is pushed and a [TypeError] reaches
    the callback. *)
Theorem array_like_results_rejected {platform : Platform} :
  forall jsonBuffer parsed results,
    JSON_parse jsonBuffer = Some parsed ->
    get_results parsed = Normal (Some results) ->
    array_like results = true ->
    flush jsonBuffer = mkOutcome [] (Some TypeError).
Proof.
  intros jsonBuffer parsed results Hp Hr Hlike.
  rewrite (flush_parsed _ _ _ Hp Hr). unfold flush_results.
  destruct results as [| b | n | s | elems | props]; try discriminate; simpl in *.
  - destruct s as [|c s]; [discriminate|]. reflexivity.
  - destruct (assoc "length" props) as [[| [|] | n | | |]|]; try discriminate.
    + reflexivity.
    + simpl. now rewrite Hlike.
Qed.

Lemma array_like_results_rejected_witness :
  @flush node_with_string_results text_string_results = mkOutcome [] (Some TypeError).
Proof.
  exact (@array_like_results_rejected node_with_string_results text_string_results
           (JObj [("results", JStr "abc")]) (JStr "abc") eq_refl eq_refl eq_refl).
Defined.

(** A record whose flat record is empty (a number, a boolean, [null], [{}],
    an empty array or string) gives a row of empty cells, one per header, as
    long as no header is the name of a member of [Object.prototype]. *)
Theorem empty_record_blank_row {platform : Platform} (result : json) (headers : list string) :
  flatten result = empty_object ->
  forallb (fun header => negb (is_Object_prototype_member header)) headers = true ->
  rowValues headers (flatten result) = map (fun _ => VJson (JStr EmptyString)) headers
  /\ row_chunk headers (flatten result)
     = Normal (join "," (map (fun _ => EmptyString) headers) +++ newline).
Proof.
  intros Hflat Hheaders. rewrite Hflat.
  assert (Hvalues : rowValues headers empty_object
                    = map (fun _ => VJson (JStr EmptyString)) headers).
  { unfold rowValues. apply map_ext_in. intros header Hin.
    rewrite forallb_forall in Hheaders. specialize (Hheaders header Hin).
    apply negb_true_iff in Hheaders.
    exact (proj1 (cell_absent_cases empty_object header eq_refl eq_refl) Hheaders). }
  split; [exact Hvalues|].
  unfold row_chunk, join_values. rewrite Hvalues.
  assert (Htexts : map_completion element_text
                     (map (fun _ : string => VJson (JStr EmptyString)) headers)
                   = Normal (map (fun _ => EmptyString) headers)).
  { clear. induction headers as [|h tl IH]; simpl; [reflexivity | now rewrite IH]. }
  now rewrite Htexts.
Qed.

Lemma empty_record_blank_row_witness :
  @rowValues Sample.node ["a"; "b"] (flatten (JNum 5))
  = [VJson (JStr EmptyString); VJson (JStr EmptyString)]
  /\ @row_chunk Sample.node ["a"; "b"] (flatten (JNum 5)) = Normal ("," +++ newline).
Proof.
  exact (@empty_record_blank_row Sample.node (JNum 5) ["a"; "b"] eq_refl eq_refl).
Defined.

(** ** Records that are arrays *)

Lemma flattenObject_JArr (elems : list json) (parent : string) (res : object) :
  flattenObject (JArr elems) parent res = array_loop parent 0 elems res.
Proof.
  simpl. generalize 0 as i. revert res.
  induction elems as [|v tl IH]; intros res i; [reflexivity|].
  simpl array_loop. rewrite <- IH. destruct v; reflexivity.
Qed.

Lemma index_key_not_proto (i : nat) : index_key i <> proto_key.
Proof. unfold index_key. destruct (Nat.to_uint i); discriminate. Qed.

Lemma In_keys_obj_assign_mono (o : object) (x k : string) (v : json) :
  In x (Object_keys o) -> In x (Object_keys (obj_assign o k v)).
Proof.
  unfold obj_assign, Object_keys. intros H.
  assert (Hnew : In x (map fst (define_new k v (own o)))) by (rewrite In_define_new; now right).
  destruct (has_key k (own o)); simpl; [now rewrite map_fst_update|].
  destruct (String.eqb k proto_key); [|exact Hnew].
  destruct (prototype o) as [| | elems | props]; simpl;
    try (now rewrite own_set_prototype); try exact Hnew.
  destruct (has_key proto_key props); simpl; [exact Hnew | now rewrite own_set_prototype].
Qed.

Lemma In_keys_obj_assign_new (o : object) (k : string) (v : json) :
  k <> proto_key -> In k (Object_keys (obj_assign o k v)).
Proof.
  intros Hk. unfold Object_keys. apply assoc_In_iff.
  rewrite assoc_obj_assign by exact Hk. rewrite String.eqb_refl. discriminate.
Qed.

Lemma flattenObject_keys_mono (x : string) (obj : json) (parent : string) (res : object) :
  In x (Object_keys res) -> In x (Object_keys (flattenObject obj parent res)).
Proof.
  apply (flattenObject_invariant (fun o => In x (Object_keys o)) (fun _ => True));
    [ intros o k v _ _; apply In_keys_obj_assign_mono | trivial | trivial | trivial | trivial ].
Qed.

Lemma visit_keys_mono (x : string) (v : json) (name : string) (res : object) :
  In x (Object_keys res) -> In x (Object_keys (visit v name res)).
Proof.
  intros H. destruct v as [| b | n | s | elems | props]; unfold visit;
    try (now apply In_keys_obj_assign_mono).
  exact (flattenObject_keys_mono x (JObj props) name res H).
Qed.

Lemma array_loop_keys_mono (x parent : string) (l : list json) :
  forall i res, In x (Object_keys res) -> In x (Object_keys (array_loop parent i l res)).
Proof.
  induction l as [|v tl IH]; intros i res H; [exact H|].
  simpl. apply IH. now apply visit_keys_mono.
Qed.

Lemma array_loop_index_keys (l : list json) :
  forall j res i e,
    nth_error l i = Some e ->
    is_plain_object e = false ->
    In (index_key (j + i)) (Object_keys (array_loop EmptyString j l res)).
Proof.
  induction l as [|v tl IH]; intros j res i e Hnth Hleaf; [now destruct i|].
  destruct i as [|i]; simpl in Hnth.
  - injection Hnth as ->. rewrite Nat.add_0_r. simpl.
    apply array_loop_keys_mono. rewrite visit_leaf by exact Hleaf.
    apply In_keys_obj_assign_new. rewrite propName_top. apply index_key_not_proto.
  - simpl. rewrite <- Nat.add_succ_comm. now apply (IH (S j) _ i e).
Qed.

(** A record that is itself an array is descended into: each of its elements
    that is not a plain object becomes a column named by its index. *)
Theorem array_record_index_columns :
  forall elems i e,
    nth_error elems i = Some e ->
    is_plain_object e = false ->
    In (index_key i) (Object_keys (flatten (JArr elems))).
Proof.
  intros elems i e Hnth Hleaf. unfold flatten. rewrite flattenObject_JArr.
  exact (array_loop_index_keys elems 0 empty_object i e Hnth Hleaf).
Qed.

Lemma array_record_index_columns_witness :
  In "1" (Object_keys (flatten (JArr [JNum 10; JStr "x"]))).
Proof.
  exact (array_record_index_columns [JNum 10; JStr "x"] 1 (JStr "x") eq_refl eq_refl).
Defined.
